(** * Mock conversation API: the conversational session engine

    A shallow embedding of [mock_conversation_api.py]: the flow catalog
    [CONVERSATION_FLOW], the in-memory session store [sessions], and the two
    handlers [start_conversation] and [conversation_step], followed by the
    properties of the engine.

    Numbers that the handler receives in [request.value] are Python floats,
    that is IEEE 754 binary64 values; they are modelled with the reference
    semantics of [SpecFloat] at precision 53 and exponent bound 1024.  Python
    integers are unbounded and are modelled by [Z]. *)

From Stdlib Require Import ZArith QArith Qabs String Lia SpecFloat.
From stdpp Require Import base option list gmap strings pretty.

Local Open Scope string_scope.
Local Open Scope Z_scope.

(** ** Python floats *)

Abbreviation binary64 := spec_float (only parsing).

Definition prec : Z := 53.
Definition emax : Z := 1024.

Definition fmul (x y : binary64) : binary64 := SFmul prec emax x y.

(** A float literal whose binary significand is [m] and exponent [e]. *)
Definition lit (m : positive) (e : Z) : binary64 := S754_finite false m e.

(** The literals of the handler, as the nearest binary64 values. *)
Definition f2_5 : binary64 := lit 5629499534213120 (-51).
Definition f0_8 : binary64 := lit 7205759403792794 (-53).
Definition f1_2 : binary64 := lit 5404319552844595 (-52).
Definition f0_2 : binary64 := lit 7205759403792794 (-55).
Definition f0_85 : binary64 := lit 7656119366529843 (-53).

(** The rational number a finite float stands for (0 for the others). *)
Definition SF2Q (x : binary64) : Q :=
  match x with
  | S754_finite s m e =>
      if 0 <=? e then inject_Z (cond_Zopp s (Zpos m * 2 ^ e))
      else Qmake (cond_Zopp s (Zpos m)) (Z.to_pos (2 ^ (- e)))
  | _ => 0%Q
  end.

(** The float nearest to [m * 2 ^ e]. *)
Definition dyadic (m e : Z) : binary64 := binary_normalize prec emax m e false.

(** ** Python values and exceptions *)

Inductive py_value :=
  | PyInt (n : Z)
  | PyFloat (x : binary64)
  | PyStr (s : string).

Inductive exn :=
  | HTTPException (status_code : Z) (detail : string)
  | RequestValidationError (loc : string)
  | KeyError (key : string)
  | IndexError
  | OverflowError
  | ValueError
  | TypeError.

Inductive outcome (A : Type) :=
  | Return (a : A)
  | Raise (e : exn).
Arguments Return {A} a.
Arguments Raise {A} e.

Definition obind {A B} (o : outcome A) (k : A -> outcome B) : outcome B :=
  match o with
  | Return a => k a
  | Raise e => Raise e
  end.

(** [float(n)] for a Python int: round to nearest even, [OverflowError] when
    the int is too large for a float. *)
Definition float_of_int (n : Z) : outcome binary64 :=
  match binary_normalize prec emax n 0 false with
  | S754_infinity _ => Raise OverflowError
  | x => Return x
  end.

(** [int(x)] for a Python float: truncation toward zero; infinities and NaN
    raise. *)
Definition py_int (x : binary64) : outcome Z :=
  match x with
  | S754_zero _ => Return 0
  | S754_finite s m e => Return (cond_Zopp s (Z.shiftl (Zpos m) e))
  | S754_infinity _ => Raise OverflowError
  | S754_nan => Raise ValueError
  end.

(** [v * c] where [c] is a float literal. *)
Definition py_mul (v : py_value) (c : binary64) : outcome binary64 :=
  match v with
  | PyInt n => obind (float_of_int n) (fun x => Return (fmul x c))
  | PyFloat x => Return (fmul x c)
  | PyStr _ => Raise TypeError
  end.

(** [l[i]] on a Python list: negative indices count from the end. *)
Definition py_index {A} (l : list A) (i : Z) : outcome A :=
  let n := Z.of_nat (length l) in
  let j := if i <? 0 then i + n else i in
  if (0 <=? j) && (j <? n) then
    match l !! Z.to_nat j with
    | Some a => Return a
    | None => Raise IndexError
    end
  else Raise IndexError.

(** ** The flow catalog *)

Module Validation.
Record t := mk { min : Z; max : Z }.
End Validation.

Module FlowStep.
Record t := mk {
  step : Z;
  field : string;
  input_type : string;
  help_text : string;
  validation : Validation.t;
  ai_message_template : string
}.
End FlowStep.

Definition CONVERSATION_FLOW : list FlowStep.t := [
  FlowStep.mk 0 "revenue" "number"
    "Enter your annual revenue in euros"
    (Validation.mk 10000 1000000000)
    "Hi! I'll help you get a quick business valuation. Let's start with your annual revenue - what was your total revenue last year?";
  FlowStep.mk 1 "ebitda" "number"
    "Enter your EBITDA (earnings before interest, taxes, depreciation, and amortization)"
    (Validation.mk 0 500000000)
    "Great! Now, what was your EBITDA (earnings before interest, taxes, depreciation, and amortization) last year?";
  FlowStep.mk 2 "employees" "number"
    "How many employees does your company have?"
    (Validation.mk 1 10000)
    "Thanks! How many employees does your company have?";
  FlowStep.mk 3 "industry" "text"
    "What industry is your company in?"
    (Validation.mk 2 100)
    "What industry is your company in? (e.g., Technology, Manufacturing, Services)";
  FlowStep.mk 4 "growth_rate" "number"
    "What's your expected annual growth rate?"
    (Validation.mk (-50) 200)
    "What's your expected annual growth rate for the next few years? (as a percentage, e.g., 15 for 15%)";
  FlowStep.mk 5 "country" "text"
    "What country is your company based in?"
    (Validation.mk 2 50)
    "Finally, what country is your company based in?"
].

Definition stepCount : Z := Z.of_nat (length CONVERSATION_FLOW).

(** ** Sessions and the session store *)

Module Session.
(** One entry of [sessions].  The only values ever written into ["data"]
    are [request.value], which the request model types as a float. *)
Record t := mk {
  company_id : string;
  step : Z;
  data : gmap string binary64;
  started_at : string
}.
End Session.

Abbreviation store := (gmap string Session.t) (only parsing).

(** ** Request and response models *)

Module StartConversationRequest.
Record t := mk { company_id : string }.
End StartConversationRequest.

Module CompanyInfo.
Record t := mk { company_name : string; industry : string; country : string }.
End CompanyInfo.

Module StartConversationResponse.
Record t := mk {
  session_id : string;
  company_info : CompanyInfo.t;
  ai_message : string;
  step : Z;
  next_field : string;
  input_type : string;
  help_text : string;
  validation : Validation.t
}.
End StartConversationResponse.

Module ConversationStepRequest.
Record t := mk {
  company_id : string;
  session_id : string;
  step : Z;
  field : string;
  value : binary64
}.
End ConversationStepRequest.

Module ValuationResult.
Record t := mk {
  valuation_id : string;
  equity_value : Z;
  valuation_range : Validation.t;
  confidence_score : binary64;
  methodology : string;
  company_name : string;
  revenue : py_value;
  ebitda : py_value;
  employees : py_value;
  industry : py_value;
  country : py_value;
  growth_rate : py_value
}.
End ValuationResult.

Module ConversationStepResponse.
Record t := mk {
  complete : bool;
  ai_message : string;
  step : option Z;
  next_field : option string;
  input_type : option string;
  help_text : option string;
  validation : option Validation.t;
  valuation_result : option ValuationResult.t;
  error : option string
}.
End ConversationStepResponse.

(** ** Handlers: computations over the session store that may raise *)

Definition Handler (A : Type) : Type := store -> store * outcome A.

Definition ret {A} (a : A) : Handler A := fun σ => (σ, Return a).
Definition raise {A} (e : exn) : Handler A := fun σ => (σ, Raise e).
Definition bind {A B} (h : Handler A) (k : A -> Handler B) : Handler B :=
  fun σ =>
    match h σ with
    | (σ', Return a) => k a σ'
    | (σ', Raise e) => (σ', Raise e)
    end.
Definition lift {A} (o : outcome A) : Handler A := fun σ => (σ, o).

Declare Scope handler_scope.
Delimit Scope handler_scope with handler.
Notation "x <- h ;; k" := (bind h (fun x => k))
  (at level 100, h at next level, right associativity) : handler_scope.
Notation "h ;;; k" := (bind h (fun _ => k))
  (at level 100, right associativity) : handler_scope.
Local Open Scope handler_scope.

(** [sid in sessions] *)
Definition contains (sid : string) : Handler bool :=
  fun σ => (σ, Return (bool_decide (is_Some (σ !! sid)))).

(** [sessions[sid]] *)
Definition get_session (sid : string) : Handler Session.t :=
  fun σ =>
    match σ !! sid with
    | Some s => (σ, Return s)
    | None => (σ, Raise (KeyError sid))
    end.

(** [sessions[sid] = s] *)
Definition set_session (sid : string) (s : Session.t) : Handler unit :=
  fun σ => (<[sid := s]> σ, Return tt).

(** [sessions[sid]["data"][field] = value], through the reference held by
    the handler. *)
Definition set_answer (sid field : string) (value : binary64) : Handler unit :=
  fun σ =>
    (alter (fun s => Session.mk (Session.company_id s) (Session.step s)
                       (<[field := value]> (Session.data s))
                       (Session.started_at s)) sid σ,
     Return tt).

(** [sessions[sid]["step"] = n] *)
Definition set_step (sid : string) (n : Z) : Handler unit :=
  fun σ =>
    (alter (fun s => Session.mk (Session.company_id s) n (Session.data s)
                       (Session.started_at s)) sid σ,
     Return tt).

(** [d.get(key, default)] on the answer mapping. *)
Definition data_get (d : gmap string binary64) (key : string)
    (default : py_value) : py_value :=
  match d !! key with
  | Some x => PyFloat x
  | None => default
  end.

(** ** Start conversation *)

(** The values a call draws from its environment: [uuid.uuid4()] and
    [datetime.utcnow()], the latter both as ISO text and as a timestamp. *)
Module Env.
Record t := mk { uuid4 : string; utcnow_isoformat : string; utcnow_timestamp : Z }.
End Env.

Definition start_conversation (env : Env.t)
    (request : StartConversationRequest.t) : Handler StartConversationResponse.t :=
  let session_id := Env.uuid4 env in
  set_session session_id
    (Session.mk (StartConversationRequest.company_id request) 0 ∅
       (Env.utcnow_isoformat env)) ;;;
  first_step <- lift (py_index CONVERSATION_FLOW 0) ;;
  ret (StartConversationResponse.mk session_id
         (CompanyInfo.mk "Demo Company" "Technology" "Belgium")
         (FlowStep.ai_message_template first_step)
         0
         (FlowStep.field first_step)
         (FlowStep.input_type first_step)
         (FlowStep.help_text first_step)
         (FlowStep.validation first_step)).

(** ** Conversation step *)

(** The mock valuation computed on completion, from the answer mapping. *)
Definition mock_valuation (now : Z) (d : gmap string binary64)
    : outcome ValuationResult.t :=
  let revenue := data_get d "revenue" (PyInt 1000000) in
  obind (py_mul revenue f0_2) (fun ebitda_default =>
  let ebitda := data_get d "ebitda" (PyFloat ebitda_default) in
  let employees := data_get d "employees" (PyInt 10) in
  let industry := data_get d "industry" (PyStr "Technology") in
  let country := data_get d "country" (PyStr "Belgium") in
  let growth_rate := data_get d "growth_rate" (PyInt 15) in
  obind (obind (py_mul revenue f2_5) py_int) (fun valuation =>
  obind (obind (py_mul (PyInt valuation) f0_8) py_int) (fun min_valuation =>
  obind (obind (py_mul (PyInt valuation) f1_2) py_int) (fun max_valuation =>
  Return (ValuationResult.mk
            ("val_" +:+ pretty now)
            valuation
            (Validation.mk min_valuation max_valuation)
            f0_85
            "DCF + Market Multiples"
            "Demo Company"
            revenue ebitda employees industry country growth_rate))))).

Definition complete_response (v : ValuationResult.t) : ConversationStepResponse.t :=
  ConversationStepResponse.mk true
    "Perfect! I have all the information I need. Your business valuation is complete."
    None None None None None (Some v) None.

Definition next_step_response (next_step : FlowStep.t) : ConversationStepResponse.t :=
  ConversationStepResponse.mk false
    (FlowStep.ai_message_template next_step)
    (Some (FlowStep.step next_step))
    (Some (FlowStep.field next_step))
    (Some (FlowStep.input_type next_step))
    (Some (FlowStep.help_text next_step))
    (Some (FlowStep.validation next_step))
    None None.

Definition conversation_step (env : Env.t)
    (request : ConversationStepRequest.t) : Handler ConversationStepResponse.t :=
  let sid := ConversationStepRequest.session_id request in
  let declared := ConversationStepRequest.step request in
  known <- contains sid ;;
  if negb known then raise (HTTPException 400 "Invalid session_id") else
  set_answer sid (ConversationStepRequest.field request)
    (ConversationStepRequest.value request) ;;;
  set_step sid (declared + 1) ;;;
  if stepCount - 1 <=? declared then
    session <- get_session sid ;;
    valuation_result <- lift (mock_valuation (Env.utcnow_timestamp env)
                                (Session.data session)) ;;
    ret (complete_response valuation_result)
  else
    next_step <- lift (py_index CONVERSATION_FLOW (declared + 1)) ;;
    ret (next_step_response next_step).

(** ** The request model in front of the handler *)

(** The ["value"] member of a request body as it arrives: a JSON number,
    already read as a float, or a JSON string. *)
Inductive json_value :=
  | JNumber (x : binary64)
  | JString (s : string).

Module StepBody.
Record t := mk {
  company_id : string;
  session_id : string;
  step : Z;
  field : string;
  value : json_value
}.
End StepBody.

Section RequestModel.

(** The conversion of text to a float that the model applies to a string
    given for a [float] field; it belongs to the validation library, not to
    this repository. *)
Variable float_of_str : string -> option binary64.

(** The field [value: float] of [ConversationStepRequest]. *)
Definition validate_float (v : json_value) : outcome binary64 :=
  match v with
  | JNumber x => Return x
  | JString s =>
      match float_of_str s with
      | Some x => Return x
      | None => Raise (RequestValidationError "value")
      end
  end.

Definition parse_step_request (body : StepBody.t)
    : outcome ConversationStepRequest.t :=
  obind (validate_float (StepBody.value body)) (fun x =>
  Return (ConversationStepRequest.mk (StepBody.company_id body)
            (StepBody.session_id body) (StepBody.step body)
            (StepBody.field body) x)).

(** The route: the body is validated against the model, then handed to
    [conversation_step]. *)
Definition step_endpoint (env : Env.t) (body : StepBody.t)
    : Handler ConversationStepResponse.t :=
  request <- lift (parse_step_request body) ;;
  conversation_step env request.

End RequestModel.

(** A text-to-float conversion that reads unsigned decimal integers. *)
Fixpoint digits_value (s : string) (acc : Z) : option Z :=
  match s with
  | EmptyString => Some acc
  | String c rest =>
      let n := Z.of_N (Ascii.N_of_ascii c) - 48 in
      if (0 <=? n) && (n <=? 9) then digits_value rest (10 * acc + n) else None
  end.

Definition decimal_to_float (s : string) : option binary64 :=
  match s with
  | EmptyString => None
  | _ =>
      match digits_value s 0 with
      | Some n =>
          match float_of_int n with
          | Return x => Some x
          | Raise _ => None
          end
      | None => None
      end
  end.

(** ** Vocabulary of the properties *)

(** The session entry after the two writes of [conversation_step]. *)
Definition answered (request : ConversationStepRequest.t) (s : Session.t)
    : Session.t :=
  Session.mk (Session.company_id s)
    (ConversationStepRequest.step request + 1)
    (<[ConversationStepRequest.field request :=
         ConversationStepRequest.value request]> (Session.data s))
    (Session.started_at s).

(** What [conversation_step] answers once the session entry is [s']. *)
Definition step_outcome (env : Env.t) (request : ConversationStepRequest.t)
    (s' : Session.t) : outcome ConversationStepResponse.t :=
  if stepCount - 1 <=? ConversationStepRequest.step request then
    obind (mock_valuation (Env.utcnow_timestamp env) (Session.data s'))
      (fun v => Return (complete_response v))
  else
    obind (py_index CONVERSATION_FLOW (ConversationStepRequest.step request + 1))
      (fun n => Return (next_step_response n)).

(** A numeric value that breaks a validation rule, in the words of the
    specification: below [min] or above [max].  No function of the source
    evaluates this predicate. *)
Definition violates (v : Validation.t) (x : binary64) : Prop :=
  (SF2Q x < inject_Z (Validation.min v))%Q \/
  (inject_Z (Validation.max v) < SF2Q x)%Q.

(** [z] is an integer nearest to [q], whatever the rule for ties. *)
Definition nearest_integer (q : Q) (z : Z) : Prop :=
  (Qabs (q - inject_Z z) <= 1 # 2)%Q.

(** Truncation of a rational toward zero. *)
Definition Qtruncate (q : Q) : Z := Z.quot (Qnum q) (Zpos (Qden q)).

(** [magnitude_le x B]: [x] is finite and [|x| < 2 ^ B]. *)
Definition magnitude_le (x : binary64) (B : Z) : Prop :=
  match x with
  | S754_zero _ => True
  | S754_finite _ m e => Zpos (digits2_pos m) + e <= B
  | _ => False
  end.

Definition value_le (v : py_value) (B : Z) : Prop :=
  match v with
  | PyInt n => Z.abs n < 2 ^ B
  | PyFloat x => magnitude_le x (B + 1)
  | PyStr _ => False
  end.

(** A float that is finite and below [2 ^ 900] in magnitude. *)
Definition moderate (x : binary64) : bool :=
  match x with
  | S754_zero _ => true
  | S754_finite _ m e => Zpos (digits2_pos m) + e <=? 900
  | _ => false
  end.

(** The revenue of an answer mapping is absent or moderate. *)
Definition revenue_moderate (d : gmap string binary64) : bool :=
  match d !! "revenue" with
  | Some x => moderate x
  | None => true
  end.

(** A result without its time-derived identifier. *)
Definition erase_id (v : ValuationResult.t) : ValuationResult.t :=
  ValuationResult.mk ""
    (ValuationResult.equity_value v) (ValuationResult.valuation_range v)
    (ValuationResult.confidence_score v) (ValuationResult.methodology v)
    (ValuationResult.company_name v) (ValuationResult.revenue v)
    (ValuationResult.ebitda v) (ValuationResult.employees v)
    (ValuationResult.industry v) (ValuationResult.country v)
    (ValuationResult.growth_rate v).

(** The field names of the first [n] steps of the catalog. *)
Definition fields_below (n : Z) : gset string :=
  list_to_set (FlowStep.field <$> take (Z.to_nat n) CONVERSATION_FLOW).

(** Stores reachable from the empty store by any calls. *)
Inductive reachable : store -> Prop :=
  | reachable_empty : reachable ∅
  | reachable_start env request σ :
      reachable σ -> reachable (fst (start_conversation env request σ))
  | reachable_step env request σ :
      reachable σ -> reachable (fst (conversation_step env request σ)).

(** A Step request that follows the sequence: aimed at an unknown session,
    or declaring the stored ordinal of its session together with the field
    the catalog has at that ordinal. *)
Definition in_sequence (σ : store) (request : ConversationStepRequest.t) : Prop :=
  match σ !! ConversationStepRequest.session_id request with
  | None => True
  | Some s =>
      0 <= Session.step s /\
      ConversationStepRequest.step request = Session.step s /\
      exists fs, CONVERSATION_FLOW !! Z.to_nat (Session.step s) = Some fs /\
                 ConversationStepRequest.field request = FlowStep.field fs
  end.

(** Stores reachable when every Step request follows the sequence. *)
Inductive reachable_in_sequence : store -> Prop :=
  | in_sequence_empty : reachable_in_sequence ∅
  | in_sequence_start env request σ :
      reachable_in_sequence σ ->
      reachable_in_sequence (fst (start_conversation env request σ))
  | in_sequence_step env request σ :
      reachable_in_sequence σ -> in_sequence σ request ->
      reachable_in_sequence (fst (conversation_step env request σ)).

(** ** A running example *)

Definition demo_env : Env.t :=
  Env.mk "6f1c2a9e-5b7d-4c3a-9e2f-0a1b2c3d4e5f" "2024-01-01T00:00:00" 1704067200.

Definition demo_id : string := Env.uuid4 demo_env.

(** The store after [Start] with subject ["co-1"]. *)
Definition demo_start : store :=
  fst (start_conversation demo_env (StartConversationRequest.mk "co-1") ∅).

Definition demo_request (step : Z) (field : string) (value : binary64)
    : ConversationStepRequest.t :=
  ConversationStepRequest.mk "co-1" demo_id step field value.

Definition demo_steps (requests : list ConversationStepRequest.t) (σ : store)
    : store :=
  foldl (fun σ r => fst (conversation_step demo_env r σ)) σ requests.

(** Steps 0 to 4 answered in order, revenue 2000000; the industry is given
    as a number because the request model has no other kind of value. *)
Definition demo_five_answers : store :=
  demo_steps [demo_request 0 "revenue" (dyadic 2000000 0);
              demo_request 1 "ebitda" (dyadic 400000 0);
              demo_request 2 "employees" (dyadic 25 0);
              demo_request 3 "industry" (dyadic 7 0);
              demo_request 4 "growth_rate" (dyadic 15 0)] demo_start.

Definition demo_session (σ : store) : option Session.t := σ !! demo_id.

(** A second session, for the examples about two sessions. *)
Definition demo_other : Session.t :=
  Session.mk "co-2" 3 (<["revenue" := dyadic 50000 0]> ∅) "2024-01-02T00:00:00".

(** The response of a call that returned one. *)
Definition returned {A} (o : outcome A) : option A :=
  match o with
  | Return a => Some a
  | Raise _ => None
  end.

(** Steps 0 to 4 answered in order with revenue 10000.25. *)
Definition demo_quarter_revenue : store :=
  demo_steps [demo_request 0 "revenue" (dyadic 40001 (-2));
              demo_request 1 "ebitda" (dyadic 2000 0);
              demo_request 2 "employees" (dyadic 25 0);
              demo_request 3 "industry" (dyadic 7 0);
              demo_request 4 "growth_rate" (dyadic 15 0)] demo_start.

(** All six steps answered in order. *)
Definition demo_six_answers : store :=
  fst (conversation_step demo_env (demo_request 5 "country" (dyadic 7 0))
         demo_five_answers).

(** ** Sequences of calls *)

(** A run of Step calls, each with the environment it is served in. *)
Definition run_steps (calls : list (Env.t * ConversationStepRequest.t))
    (σ : store) : store :=
  foldl (fun σ c => fst (conversation_step (fst c) (snd c) σ)) σ calls.

Inductive call :=
  | StartCall (env : Env.t) (request : StartConversationRequest.t)
  | StepCall (env : Env.t) (request : ConversationStepRequest.t).

Definition run_call (c : call) (σ : store) : store :=
  match c with
  | StartCall env request => fst (start_conversation env request σ)
  | StepCall env request => fst (conversation_step env request σ)
  end.

Definition run_calls (calls : list call) (σ : store) : store :=
  foldl (fun σ c => run_call c σ) σ calls.

(** The identifiers drawn by the Start calls of a run. *)
Definition started_ids (calls : list call) : gset string :=
  list_to_set (omap (fun c => match c with
                              | StartCall env _ => Some (Env.uuid4 env)
                              | StepCall _ _ => None
                              end) calls).

(** The Step calls of a run that answer field [f] of session [sid]. *)
Definition answers_to (sid f : string)
    (calls : list (Env.t * ConversationStepRequest.t))
    : list (Env.t * ConversationStepRequest.t) :=
  filter (fun c => ConversationStepRequest.session_id (snd c) = sid /\
                   ConversationStepRequest.field (snd c) = f) calls.

(** The Step calls of a run that are aimed at session [sid]. *)
Definition calls_to (sid : string)
    (calls : list (Env.t * ConversationStepRequest.t))
    : list (Env.t * ConversationStepRequest.t) :=
  filter (fun c => ConversationStepRequest.session_id (snd c) = sid) calls.

(** ** A client that answers what it is asked *)

(** The request a client sends after Start: the step and field of the
    response, with its answer for that field. *)
Definition reply_to_start (answer : string -> binary64)
    (resp : StartConversationResponse.t) : ConversationStepRequest.t :=
  ConversationStepRequest.mk "" (StartConversationResponse.session_id resp)
    (StartConversationResponse.step resp)
    (StartConversationResponse.next_field resp)
    (answer (StartConversationResponse.next_field resp)).

(** The request a client sends after a Step response that asks for a further
    field; [None] when the response asks for nothing. *)
Definition reply_to_step (sid : string) (answer : string -> binary64)
    (resp : ConversationStepResponse.t) : option ConversationStepRequest.t :=
  match ConversationStepResponse.step resp,
        ConversationStepResponse.next_field resp with
  | Some n, Some f => Some (ConversationStepRequest.mk "" sid n f (answer f))
  | _, _ => None
  end.

(** The client keeps replying, one environment per call, until the response
    asks for nothing, a call raises, or the environments run out. *)
Fixpoint converse (env : Env.t) (envs : list Env.t)
    (answer : string -> binary64) (request : ConversationStepRequest.t)
    (σ : store) : store * outcome ConversationStepResponse.t :=
  let r := conversation_step env request σ in
  match envs, snd r with
  | env' :: envs', Return resp =>
      match reply_to_step (ConversationStepRequest.session_id request)
              answer resp with
      | Some request' => converse env' envs' answer request' (fst r)
      | None => r
      end
  | _, _ => r
  end.

(** The sign bit of a float is clear (NaN has none). *)
Definition sign_clear (x : binary64) : bool :=
  match x with
  | S754_zero s | S754_infinity s | S754_finite s _ _ => negb s
  | S754_nan => false
  end.

(** A Python number that is not negative: an int at least 0, or a float
    whose sign bit is clear. *)
Definition py_nonneg (v : py_value) : bool :=
  match v with
  | PyInt n => 0 <=? n
  | PyFloat x => sign_clear x
  | PyStr _ => false
  end.

(** The answers of the running example's client. *)
Definition demo_answers (f : string) : binary64 :=
  if decide (f = "revenue") then dyadic 2000000 0 else dyadic 7 0.

(** * The favicon converter

    [convert-svg-to-ico.py].  The rendering and imaging libraries are taken
    as they come: their data are abstract, each of their calls may raise, and
    the converter's run is described by the calls it makes, in order. *)

Module SvgToIco.

Section Libraries.

(** Encoded PNG data and decoded images. *)
Variables (png image : Type).

(** [cairosvg.svg2png(url, output_width, output_height)] *)
Variable svg2png : string -> Z -> Z -> outcome png.
(** [Image.open(io.BytesIO(png_data))] *)
Variable image_open : png -> outcome image.
(** [img.resize((w, h), Image.Resampling.LANCZOS)] *)
Variable resize : image -> Z -> Z -> outcome image.
(** [image.save(path, format='ICO', sizes=...)] *)
Variable save : image -> string -> list (Z * Z) -> outcome unit.
(** [path.exists()] *)
Variable file_exists : string -> bool.

(** The calls that reach outside the script. *)
Inductive lib_call :=
  | Svg2png (url : string) (width height : Z)
  | ImageOpen (data : png)
  | Resize (img : image) (width height : Z)
  | Save (img : image) (path : string) (sizes : list (Z * Z))
  | Print (text : string).

(** A script: the calls made so far and how it ended. *)
Definition Script (A : Type) : Type := list lib_call * outcome A.

Definition sret {A} (a : A) : Script A := ([], Return a).

Definition sbind {A B} (m : Script A) (k : A -> Script B) : Script B :=
  match m with
  | (calls, Return a) => let '(calls', r) := k a in ((calls ++ calls')%list, r)
  | (calls, Raise e) => (calls, Raise e)
  end.

(** One call to a library: recorded, then its outcome. *)
Definition perform {A} (c : lib_call) (o : outcome A) : Script A := ([c], o).

(** [max(sizes)]: [ValueError] on an empty list. *)
Definition py_max (sizes : list Z) : outcome Z :=
  match sizes with
  | [] => Raise ValueError
  | size :: rest => Return (foldl Z.max size rest)
  end.

(** The loop that resizes the rendered image to each size, in order. *)
Fixpoint resize_each (img : image) (sizes : list Z) : Script (list image) :=
  match sizes with
  | [] => sret []
  | size :: rest =>
      sbind (perform (Resize img size size) (resize img size size))
        (fun resized =>
      sbind (resize_each img rest) (fun images => sret (resized :: images)))
  end.

Definition svg_to_ico (svg_path ico_path : string) (sizes : list Z)
    : Script unit :=
  sbind ([], py_max sizes) (fun max_size =>
  sbind (perform (Svg2png svg_path max_size max_size)
           (svg2png svg_path max_size max_size)) (fun png_data =>
  sbind (perform (ImageOpen png_data) (image_open png_data)) (fun img =>
  sbind (resize_each img sizes) (fun images =>
  sbind ([], py_index images 0) (fun first =>
  sbind (perform (Save first ico_path (map (fun s => (s, s)) sizes))
           (save first ico_path (map (fun s => (s, s)) sizes))) (fun _ =>
  perform (Print ("Successfully converted " +:+ svg_path +:+ " to " +:+ ico_path))
    (Return tt))))))).

(** How the program ends: [sys.exit(code)], an uncaught exception, or the
    end of the script. *)
Inductive termination :=
  | Exit (code : Z)
  | Uncaught (e : exn)
  | Done.

Definition default_sizes : list Z := [16; 32; 48].

Definition main : list lib_call * termination :=
  let svg_file := "public/favicon-2.svg" in
  let ico_file := "public/favicon.ico" in
  if negb (file_exists svg_file) then
    ([Print ("Error: " +:+ svg_file +:+ " not found")], Exit 1)
  else
    match svg_to_ico svg_file ico_file default_sizes with
    | (calls, Return _) =>
        ((calls ++ [Print "Conversion complete!"])%list, Done)
    | (calls, Raise e) => (calls, Uncaught e)
    end.

(** The call is a [Save]. *)
Definition is_save (c : lib_call) : bool :=
  match c with
  | Save _ _ _ => true
  | _ => false
  end.

(** The call is a [Print]. *)
Definition is_print (c : lib_call) : bool :=
  match c with
  | Print _ => true
  | _ => false
  end.

End Libraries.

Arguments sret {png image A}.
Arguments sbind {png image A B}.
Arguments perform {png image A}.
Arguments resize_each {png image}.
Arguments svg_to_ico {png image}.
Arguments main {png image}.
Arguments Svg2png {png image}.
Arguments ImageOpen {png image}.
Arguments Resize {png image}.
Arguments Save {png image}.
Arguments Print {png image}.
Arguments is_save {png image}.
Arguments is_print {png image}.

(** ** The program as a script

    Before the [__main__] block the module imports the two libraries; on
    [ImportError] it prints a notice, runs pip in a subprocess and imports
    again, outside any handler. *)

Section Program.

Variables (png image : Type).
Variable svg2png : string -> Z -> Z -> outcome png.
Variable image_open : png -> outcome image.
Variable resize : image -> Z -> Z -> outcome image.
Variable save : image -> string -> list (Z * Z) -> outcome unit.
Variable file_exists : string -> bool.

(** [from PIL import Image; import cairosvg] at start: [true] when both
    bind, [false] when one raises [ImportError]. *)
Variable first_import : bool.
(** [sys.executable] *)
Variable executable : string.
(** [subprocess.check_call(...)]: [true] when pip exits with status 0,
    [false] when it raises [CalledProcessError]. *)
Variable pip_install : bool.
(** The same imports after the installation. *)
Variable second_import : bool.

(** What the script does, in order: the import statements, the pip
    subprocess, and the calls of the [__main__] block. *)
Inductive program_call :=
  | Import
  | Subprocess (args : list string)
  | Library (c : lib_call png image).

Inductive program_end :=
  | Ended (t : termination)
  | UncaughtCalledProcessError
  | UncaughtImportError.

Definition install_command : list string :=
  [executable; "-m"; "pip"; "install"; "Pillow"; "cairosvg"; "--quiet"].

(** The [__main__] block, after the calls made [before] it. *)
Definition run_main (before : list program_call)
    : list program_call * program_end :=
  let '(calls, t) := main svg2png image_open resize save file_exists in
  ((before ++ map Library calls)%list, Ended t).

Definition program : list program_call * program_end :=
  if first_import then run_main [Import]
  else
    let installing :=
      [Import;
       Library (Print "Required packages not found. Installing...");
       Subprocess install_command] in
    if pip_install then
      if second_import then run_main (installing ++ [Import])%list
      else ((installing ++ [Import])%list, UncaughtImportError)
    else (installing, UncaughtCalledProcessError).

End Program.

Arguments Import {png image}.
Arguments Subprocess {png image}.
Arguments Library {png image}.
Arguments run_main {png image}.
Arguments program {png image}.

(** A stand-in for the libraries, for examples: an image is its width and
    height, rendering gives an image of the size asked and resizing one of
    the new size; nothing raises. *)
Definition toy_svg2png (url : string) (w h : Z) : outcome (Z * Z) :=
  Return (w, h).
Definition toy_open (data : Z * Z) : outcome (Z * Z) := Return data.
Definition toy_resize (img : Z * Z) (w h : Z) : outcome (Z * Z) :=
  Return (w, h).
Definition toy_save (img : Z * Z) (path : string) (sizes : list (Z * Z))
    : outcome unit := Return tt.

End SvgToIco.

(** A response without the time-derived identifier of its result. *)
Definition response_without_id (resp : ConversationStepResponse.t)
    : ConversationStepResponse.t :=
  ConversationStepResponse.mk
    (ConversationStepResponse.complete resp)
    (ConversationStepResponse.ai_message resp)
    (ConversationStepResponse.step resp)
    (ConversationStepResponse.next_field resp)
    (ConversationStepResponse.input_type resp)
    (ConversationStepResponse.help_text resp)
    (ConversationStepResponse.validation resp)
    (erase_id <$> ConversationStepResponse.valuation_result resp)
    (ConversationStepResponse.error resp).

(** An outcome without that identifier: a raised exception is kept. *)
Definition outcome_without_id (o : outcome ConversationStepResponse.t)
    : outcome ConversationStepResponse.t :=
  match o with
  | Return resp => Return (response_without_id resp)
  | Raise e => Raise e
  end.

(** * Properties *)

(** ** Float arithmetic: digits, rounding and overflow *)

Lemma digits2_pos_size p : digits2_pos p = Pos.size p.
Proof. induction p; simpl; congruence. Qed.

Lemma Zdigits2_nonneg m : 0 <= Zdigits2 m.
Proof. destruct m; simpl; lia. Qed.

Lemma Zdigits2_lt m : 0 <= m -> m < 2 ^ Zdigits2 m.
Proof.
  destruct m as [|p|p]; simpl; intros Hm; [lia| |lia].
  rewrite digits2_pos_size.
  pose proof (Pos.size_gt p) as Hgt.
  apply Pos2Z.pos_lt_pos in Hgt. now rewrite Pos2Z.inj_pow in Hgt.
Qed.

Lemma Zdigits2_le m k : 0 <= m -> 0 <= k -> m < 2 ^ k -> Zdigits2 m <= k.
Proof.
  destruct m as [|p|p]; simpl; intros Hm Hk Hlt; [lia| |lia].
  rewrite digits2_pos_size.
  pose proof (Pos.size_le p) as Hle.
  apply Pos2Z.pos_le_pos in Hle. rewrite Pos2Z.inj_pow in Hle.
  rewrite (Pos2Z.inj_xO p) in Hle.
  destruct (Z_lt_le_dec k (Z.pos (Pos.size p))) as [Hlt'|]; [|lia].
  exfalso.
  assert (2 ^ (k + 1) <= 2 ^ Z.pos (Pos.size p)) by (apply Z.pow_le_mono_r; lia).
  rewrite Z.pow_add_r in H by lia. lia.
Qed.

Lemma Zdigits2_div_pow2 m n :
  0 <= m -> 0 < n -> Zdigits2 (m / 2 ^ n) <= Z.max 0 (Zdigits2 m - n).
Proof.
  intros Hm Hn.
  pose proof (Zdigits2_lt m Hm) as Hlt.
  pose proof (Zdigits2_nonneg m) as Hd.
  assert (0 < 2 ^ n) as Hpow by (apply Z.pow_pos_nonneg; lia).
  apply Zdigits2_le; [apply Z.div_pos; lia | lia |].
  destruct (Z_le_gt_dec n (Zdigits2 m)) as [Hle|Hgt].
  - rewrite Z.max_r by lia.
    apply Z.div_lt_upper_bound; [lia|].
    rewrite <- Z.pow_add_r by lia.
    now replace (n + (Zdigits2 m - n)) with (Zdigits2 m) by lia.
  - rewrite Z.max_l by lia.
    rewrite Z.div_small; [reflexivity|].
    split; [lia|].
    apply Z.lt_le_trans with (1 := Hlt).
    apply Z.pow_le_mono_r; lia.
Qed.

Lemma Zdigits2_succ m : 0 <= m -> Zdigits2 (m + 1) <= Zdigits2 m + 1.
Proof.
  intros Hm.
  pose proof (Zdigits2_lt m Hm) as Hlt.
  pose proof (Zdigits2_nonneg m) as Hd.
  apply Zdigits2_le; [lia | lia |].
  rewrite Z.pow_add_r by lia. lia.
Qed.

Lemma shr_1_m mrs : 0 <= shr_m mrs -> shr_m (shr_1 mrs) = shr_m mrs / 2.
Proof.
  destruct mrs as [m r s]. simpl. intros Hm.
  rewrite <- Z.div2_div.
  destruct m as [|[p|p|]|p]; try reflexivity. lia.
Qed.

Lemma iter_shr_1_m p : forall mrs,
  0 <= shr_m mrs -> shr_m (SpecFloat.iter_pos shr_1 p mrs) = shr_m mrs / 2 ^ Zpos p.
Proof.
  induction p as [p IH|p IH|]; intros mrs Hm; simpl SpecFloat.iter_pos.
  - assert (0 <= shr_m (shr_1 mrs)) as H1
      by (rewrite shr_1_m by done; apply Z.div_pos; lia).
    assert (0 < 2 ^ Z.pos p) as Hpow by (apply Z.pow_pos_nonneg; lia).
    assert (0 <= shr_m (SpecFloat.iter_pos shr_1 p (shr_1 mrs))) as H2
      by (rewrite IH by done; apply Z.div_pos; lia).
    rewrite IH, IH, shr_1_m by done.
    rewrite !Z.div_div by lia. f_equal.
    rewrite (Pos2Z.inj_xI p), Z.pow_add_r, Z.pow_mul_r by lia.
    change (2 ^ 2) with 4. change (2 ^ 1) with 2.
    replace (4 ^ Z.pos p) with (2 ^ Z.pos p * 2 ^ Z.pos p); [lia|].
    rewrite <- Z.pow_mul_l. reflexivity.
  - assert (0 < 2 ^ Z.pos p) as Hpow by (apply Z.pow_pos_nonneg; lia).
    assert (0 <= shr_m (SpecFloat.iter_pos shr_1 p mrs)) as H2
      by (rewrite IH by done; apply Z.div_pos; lia).
    rewrite IH, IH by done.
    rewrite !Z.div_div by lia. f_equal.
    rewrite (Pos2Z.inj_xO p), Z.pow_mul_r by lia.
    change (2 ^ 2) with 4.
    rewrite <- Z.pow_mul_l. reflexivity.
  - rewrite shr_1_m by done. reflexivity.
Qed.

Lemma shr_record_of_loc_m m l : shr_m (shr_record_of_loc m l) = m.
Proof. destruct l as [|[]]; reflexivity. Qed.

(** The significand and exponent after [shr_fexp]: the magnitude bound
    [Zdigits2 m + e <= B] is kept, the exponent is the larger of the old one
    and the one that [fexp] asks for. *)
Lemma shr_fexp_bound m e l B mrs e' :
  0 <= m -> Zdigits2 m + e <= B -> -1074 <= B ->
  shr_fexp prec emax m e l = (mrs, e') ->
  0 <= shr_m mrs /\ Zdigits2 (shr_m mrs) + e' <= B /\
  e' = Z.max e (fexp prec emax (Zdigits2 m + e)).
Proof.
  intros Hm HB Hlow. unfold shr_fexp, shr.
  pose proof (Zdigits2_nonneg m) as Hd.
  destruct (fexp prec emax (Zdigits2 m + e) - e) as [|n|n] eqn:Hn;
    intros [= <- <-]; rewrite ?shr_record_of_loc_m.
  - repeat split; lia.
  - assert (0 < 2 ^ Z.pos n) as Hpow by (apply Z.pow_pos_nonneg; lia).
    rewrite iter_shr_1_m by (rewrite shr_record_of_loc_m; done).
    rewrite shr_record_of_loc_m.
    pose proof (Zdigits2_div_pow2 m (Z.pos n) Hm ltac:(lia)) as Hdiv.
    split; [apply Z.div_pos; lia|].
    unfold fexp, emin, prec, emax in *. lia.
  - repeat split; lia.
Qed.

Lemma round_nearest_even_bound m l :
  0 <= m ->
  0 <= round_nearest_even m l /\
  Zdigits2 (round_nearest_even m l) <= Zdigits2 m + 1.
Proof.
  intros Hm.
  pose proof (Zdigits2_succ m Hm) as Hs.
  destruct l as [|[]]; simpl; try destruct (Z.even m); lia.
Qed.

(** Rounding a non-negative significand of magnitude below [2 ^ B], with
    [B] at most 1023, never overflows. *)
Lemma binary_round_aux_bound sx mx ex lx B :
  0 <= mx -> Zdigits2 mx + ex <= B -> -1074 <= B <= 1023 -> ex <= 971 ->
  match binary_round_aux prec emax sx mx ex lx with
  | S754_zero _ => True
  | S754_finite _ m e => Zpos (digits2_pos m) + e <= B + 1
  | _ => False
  end.
Proof.
  intros Hm HB HBr Hex. unfold binary_round_aux.
  destruct (shr_fexp prec emax mx ex lx) as [mrs' e'] eqn:H1.
  destruct (shr_fexp_bound _ _ _ _ _ _ Hm HB ltac:(lia) H1) as (Hm' & HB' & He').
  set (m1 := round_nearest_even (shr_m mrs') (loc_of_shr_record mrs')).
  destruct (round_nearest_even_bound (shr_m mrs') (loc_of_shr_record mrs') Hm')
    as (Hm1 & Hd1). fold m1 in Hm1, Hd1.
  destruct (shr_fexp prec emax m1 e' loc_Exact) as [mrs'' e''] eqn:H2.
  destruct (shr_fexp_bound m1 e' loc_Exact (B + 1) _ _ Hm1 ltac:(lia) ltac:(lia) H2)
    as (Hm2 & HB2 & He2).
  pose proof (Zdigits2_nonneg mx) as Hdx.
  pose proof (Zdigits2_nonneg m1) as Hd1'.
  destruct (shr_m mrs'') as [|m|m] eqn:Hm''; [exact I| |lia].
  assert (e'' <= 971) as Hfit
    by (unfold fexp, emin, prec, emax in *; lia).
  unfold emax, prec. 
  destruct (e'' <=? 1024 - 53) eqn:Hle; [|apply Z.leb_gt in Hle; lia].
  simpl in HB2. lia.
Qed.

Lemma magnitude_le_mono x B B' : magnitude_le x B -> B <= B' -> magnitude_le x B'.
Proof. destruct x; simpl; auto; lia. Qed.

Lemma digits2_pos_mul mx my :
  Zpos (digits2_pos (mx * my)) <= Zpos (digits2_pos mx) + Zpos (digits2_pos my).
Proof.
  pose proof (Zdigits2_lt (Zpos mx) ltac:(lia)) as Hx.
  pose proof (Zdigits2_lt (Zpos my) ltac:(lia)) as Hy.
  simpl in Hx, Hy.
  apply (Zdigits2_le (Zpos (mx * my))); [lia | lia |].
  rewrite Z.pow_add_r, Pos2Z.inj_mul by lia.
  apply Z.mul_lt_mono_nonneg; lia.
Qed.

Lemma fmul_bound x c B Bc :
  magnitude_le x B -> magnitude_le c Bc -> B + Bc <= 973 ->
  magnitude_le (fmul x c) (Z.max (B + Bc) (-1074) + 1).
Proof.
  destruct x as [sx|sx| |sx mx ex], c as [sc|sc| |sc mc ec]; simpl; try done.
  intros Hx Hc Hsum.
  pose proof (digits2_pos_mul mx mc) as Hmul.
  pose proof (binary_round_aux_bound (xorb sx sc) (Zpos (mx * mc)) (ex + ec)
                loc_Exact (Z.max (B + Bc) (-1074))) as Hr.
  simpl Zdigits2 in Hr.
  specialize (Hr ltac:(lia) ltac:(lia) ltac:(lia) ltac:(lia)).
  unfold fmul. simpl.
  destruct (binary_round_aux _ _ _ _ _ _); done.
Qed.

Lemma py_int_bound x B :
  magnitude_le x B -> 0 <= B ->
  exists z, py_int x = Return z /\ Z.abs z < 2 ^ B.
Proof.
  destruct x as [s|s| |s m e]; simpl; try done; intros Hx HB.
  - exists 0. split; [done|]. simpl. apply Z.pow_pos_nonneg; lia.
  - eexists. split; [reflexivity|].
    assert (Z.abs (cond_Zopp s (Z.shiftl (Z.pos m) e)) = Z.shiftl (Z.pos m) e) as ->.
    { pose proof (Z.shiftl_nonneg (Z.pos m) e) as Hn.
      destruct s; simpl; lia. }
    pose proof (Zdigits2_lt (Zpos m) ltac:(lia)) as Hm. simpl in Hm.
    destruct (Z_le_gt_dec 0 e) as [He|He].
    + rewrite Z.shiftl_mul_pow2 by done.
      apply Z.lt_le_trans with (2 ^ (Z.pos (digits2_pos m) + e)).
      * rewrite Z.pow_add_r by lia.
        apply Z.mul_lt_mono_pos_r; [apply Z.pow_pos_nonneg; lia | done].
      * apply Z.pow_le_mono_r; lia.
    + rewrite <- (Z.opp_involutive e), Z.shiftl_opp_r.
      rewrite Z.shiftr_div_pow2 by lia.
      pose proof (Zdigits2_div_pow2 (Zpos m) (- e) ltac:(lia) ltac:(lia)) as Hd.
      simpl Zdigits2 at 2 in Hd.
      assert (0 <= Z.pos m / 2 ^ (- e)) as Hq
        by (apply Z.div_pos; [lia | apply Z.pow_pos_nonneg; lia]).
      apply Z.lt_le_trans with (1 := Zdigits2_lt _ Hq).
      apply Z.pow_le_mono_r; lia.
Qed.

Lemma digits2_pos_iter_xO m d :
  Zpos (digits2_pos (Pos.iter xO m d)) = Zpos (digits2_pos m) + Zpos d.
Proof.
  induction d as [|d IH] using Pos.peano_ind.
  - simpl. lia.
  - rewrite Pos.iter_succ. simpl digits2_pos. lia.
Qed.

Lemma binary_round_bound s m B :
  Zpos (digits2_pos m) <= B -> B <= 1023 ->
  magnitude_le (binary_round prec emax s m 0) (B + 1).
Proof.
  intros Hm HB. unfold binary_round, shl_align.
  set (ex' := fexp prec emax (Z.pos (digits2_pos m) + 0)).
  assert (ex' <= 971) as Hex' by (unfold ex', fexp, emin, prec, emax; lia).
  pose proof (binary_round_aux_bound s) as Hr.
  destruct (ex' - 0) as [|d|d] eqn:Hd.
  - specialize (Hr (Zpos m) 0 loc_Exact B ltac:(lia) ltac:(simpl; lia)
                  ltac:(lia) ltac:(lia)).
    destruct (binary_round_aux _ _ _ _ _ _); done.
  - specialize (Hr (Zpos m) 0 loc_Exact B ltac:(lia) ltac:(simpl; lia)
                  ltac:(lia) ltac:(lia)).
    destruct (binary_round_aux _ _ _ _ _ _); done.
  - pose proof (digits2_pos_iter_xO m d) as Hit.
    specialize (Hr (Zpos (Pos.iter xO m d)) ex' loc_Exact B ltac:(lia)
                  ltac:(simpl; lia) ltac:(lia) ltac:(lia)).
    destruct (binary_round_aux _ _ _ _ _ _); done.
Qed.

Lemma float_of_int_bound z B :
  Z.abs z < 2 ^ B -> 0 <= B <= 1023 ->
  exists y, float_of_int z = Return y /\ magnitude_le y (B + 1).
Proof.
  intros Hz HB. unfold float_of_int, binary_normalize.
  destruct z as [|m|m].
  - eexists; split; [reflexivity | exact I].
  - pose proof (binary_round_bound false m B) as Hr.
    specialize (Hr ltac:(apply (Zdigits2_le (Zpos m)); lia) ltac:(lia)).
    destruct (binary_round _ _ _ _ _) eqn:E; try done; eauto.
  - pose proof (binary_round_bound true m B) as Hr.
    specialize (Hr ltac:(apply (Zdigits2_le (Zpos m)); lia) ltac:(lia)).
    destruct (binary_round _ _ _ _ _) eqn:E; try done; eauto.
Qed.

Lemma py_mul_bound v c B Bc :
  value_le v B -> magnitude_le c Bc -> 0 <= B <= 1022 -> B + 1 + Bc <= 973 ->
  exists p, py_mul v c = Return p /\
            magnitude_le p (Z.max (B + 1 + Bc) (-1074) + 1).
Proof.
  intros Hv Hc HB Hsum. destruct v as [n|x|s]; simpl in *; [| |done].
  - destruct (float_of_int_bound n B Hv ltac:(lia)) as (y & -> & Hy). simpl.
    eexists; split; [reflexivity|]. by apply fmul_bound.
  - eexists; split; [reflexivity|]. by apply fmul_bound.
Qed.

Lemma revenue_moderate_value d :
  revenue_moderate d = true -> value_le (data_get d "revenue" (PyInt 1000000)) 900.
Proof.
  unfold revenue_moderate, data_get.
  destruct (d !! "revenue") as [x|]; simpl.
  - destruct x; simpl; try done. intros H%Z.leb_le. lia.
  - intros _. reflexivity.
Qed.

Lemma mock_valuation_total now d :
  revenue_moderate d = true -> exists v, mock_valuation now d = Return v.
Proof.
  intros Hv%revenue_moderate_value. unfold mock_valuation.
  set (revenue := data_get d "revenue" (PyInt 1000000)) in *.
  destruct (py_mul_bound revenue f0_2 900 (-2) Hv ltac:(simpl; lia) ltac:(lia) ltac:(lia))
    as (e0 & -> & _). cbn [obind].
  destruct (py_mul_bound revenue f2_5 900 2 Hv ltac:(simpl; lia) ltac:(lia) ltac:(lia))
    as (p & -> & Hp). cbn [obind]. 
  destruct (py_int_bound p _ Hp ltac:(lia)) as (valuation & -> & Hval).
  cbn [obind].
  replace (Z.max (900 + 1 + 2) (-1074) + 1) with 904 in Hval by lia.
  destruct (py_mul_bound (PyInt valuation) f0_8 904 0 Hval ltac:(simpl; lia)
              ltac:(lia) ltac:(lia)) as (plo & -> & Hplo).
  cbn [obind].
  destruct (py_int_bound plo _ Hplo ltac:(lia)) as (lo & -> & _).
  cbn [obind].
  destruct (py_mul_bound (PyInt valuation) f1_2 904 1 Hval ltac:(simpl; lia)
              ltac:(lia) ltac:(lia)) as (phi & -> & Hphi).
  cbn [obind].
  destruct (py_int_bound phi _ Hphi ltac:(lia)) as (hi & -> & _).
  simpl. eauto.
Qed.

Lemma py_int_truncates x z : py_int x = Return z -> z = Qtruncate (SF2Q x).
Proof.
  destruct x as [s|s| |s m e]; simpl; try done.
  - by intros [= <-].
  - intros [= <-]. unfold Qtruncate.
    destruct (Z.leb_spec 0 e) as [He|He]; simpl.
    + rewrite Z.quot_1_r, Z.shiftl_mul_pow2 by done. reflexivity.
    + assert (0 < 2 ^ (- e)) as Hpow by (apply Z.pow_pos_nonneg; lia).
      rewrite Z2Pos.id by done.
      rewrite <- (Z.opp_involutive e) at 1.
      rewrite Z.shiftl_opp_r, Z.shiftr_div_pow2 by lia.
      destruct s; simpl.
      * rewrite <- Z.quot_div_nonneg by lia.
        change (Z.neg m) with (- Z.pos m). rewrite Z.quot_opp_l by lia. done.
      * rewrite Z.quot_div_nonneg by lia. done.
Qed.

(** ** The handler, call by call *)

Lemma alter_known {A} (f : A -> A) (i : string) (x : A) (σ : gmap string A) :
  σ !! i = Some x -> alter f i σ = <[i := f x]> σ.
Proof.
  intros Hi. apply map_eq. intros j.
  destruct (decide (i = j)) as [->|Hne].
  - by rewrite lookup_alter_eq, lookup_insert_eq, Hi.
  - by rewrite lookup_alter_ne, lookup_insert_ne.
Qed.

Lemma conversation_step_unknown env request (σ : store) :
  σ !! ConversationStepRequest.session_id request = None ->
  conversation_step env request σ
  = (σ, Raise (HTTPException 400 "Invalid session_id")).
Proof.
  intros Hnone. unfold conversation_step, bind, contains.
  rewrite Hnone. rewrite bool_decide_eq_false_2; [done|].
  by intros [? ?].
Qed.

Lemma conversation_step_known env request (σ : store) s :
  σ !! ConversationStepRequest.session_id request = Some s ->
  conversation_step env request σ
  = (<[ConversationStepRequest.session_id request := answered request s]> σ,
     step_outcome env request (answered request s)).
Proof.
  intros Hs. unfold conversation_step, bind, contains.
  rewrite Hs. rewrite bool_decide_eq_true_2 by eauto. simpl.
  unfold set_answer, set_step, get_session, lift, ret, step_outcome.
  rewrite (alter_known _ _ _ _ Hs).
  erewrite alter_known by apply lookup_insert_eq.
  rewrite insert_insert_eq. simpl. fold (answered request s).
  destruct (stepCount - 1 <=? ConversationStepRequest.step request).
  - rewrite lookup_insert_eq.
    destruct (mock_valuation _ _); reflexivity.
  - destruct (py_index _ _); reflexivity.
Qed.

Lemma start_conversation_store env request (σ : store) :
  fst (start_conversation env request σ)
  = <[Env.uuid4 env := Session.mk (StartConversationRequest.company_id request)
                         0 ∅ (Env.utcnow_isoformat env)]> σ.
Proof. reflexivity. Qed.

(** ** Which exceptions the handler can raise *)

Lemma py_int_raises x e :
  py_int x = Raise e -> e = OverflowError \/ e = ValueError.
Proof. destruct x; simpl; intros [= <-]; auto. Qed.

Lemma float_of_int_raises n e : float_of_int n = Raise e -> e = OverflowError.
Proof.
  unfold float_of_int.
  destruct (binary_normalize prec emax n 0 false); intros [= <-]; auto.
Qed.

Lemma py_mul_raises v c e :
  (forall s, v <> PyStr s) -> py_mul v c = Raise e -> e = OverflowError.
Proof.
  destruct v as [n|x|s]; simpl; intros Hv.
  - destruct (float_of_int n) eqn:E; simpl; [done|].
    intros [= <-]. by apply float_of_int_raises in E.
  - done.
  - by destruct (Hv s).
Qed.

Lemma data_get_not_str d key default :
  (forall s, default <> PyStr s) -> forall s, data_get d key default <> PyStr s.
Proof. unfold data_get. destruct (d !! key); [done | auto]. Qed.

Lemma mock_valuation_raises now d e :
  mock_valuation now d = Raise e -> e = OverflowError \/ e = ValueError.
Proof.
  unfold mock_valuation.
  set (revenue := data_get d "revenue" (PyInt 1000000)).
  assert (forall s, revenue <> PyStr s) as Hrev
    by (apply data_get_not_str; done).
  destruct (py_mul revenue f0_2) eqn:E0; cbn [obind];
    [|intros [= <-]; left; eapply py_mul_raises; [exact Hrev | exact E0]].
  destruct (py_mul revenue f2_5) as [p|] eqn:E1; cbn [obind];
    [|intros [= <-]; left; eapply py_mul_raises; [exact Hrev | exact E1]].
  destruct (py_int p) as [valuation|] eqn:E2; cbn [obind];
    [|intros [= <-]; eapply py_int_raises; exact E2].
  destruct (py_mul (PyInt valuation) f0_8) as [plo|] eqn:E3; cbn [obind];
    [|intros [= <-]; left; eapply py_mul_raises; [|exact E3]; done].
  destruct (py_int plo) as [lo|] eqn:E4; cbn [obind];
    [|intros [= <-]; eapply py_int_raises; exact E4].
  destruct (py_mul (PyInt valuation) f1_2) as [phi|] eqn:E5; cbn [obind];
    [|intros [= <-]; left; eapply py_mul_raises; [|exact E5]; done].
  destruct (py_int phi) as [hi|] eqn:E6; cbn [obind];
    [done|intros [= <-]; eapply py_int_raises; exact E6].
Qed.

(** ** Indexing the catalog *)

Lemma py_index_flow_outside i :
  i < - stepCount \/ stepCount <= i ->
  py_index CONVERSATION_FLOW i = Raise IndexError.
Proof.
  unfold stepCount, py_index. simpl length. intros Hi.
  destruct (Z.ltb_spec i 0).
  - destruct (Z.leb_spec 0 (i + Z.of_nat 6)); [lia | reflexivity].
  - destruct (Z.leb_spec 0 i); [|lia].
    destruct (Z.ltb_spec i (Z.of_nat 6)); [lia | reflexivity].
Qed.

Lemma py_index_flow_inside i :
  - stepCount <= i < stepCount ->
  exists fs, py_index CONVERSATION_FLOW i = Return fs /\
             CONVERSATION_FLOW !! Z.to_nat (i mod stepCount) = Some fs.
Proof.
  unfold stepCount. simpl length. intros Hi.
  assert (i = -6 \/ i = -5 \/ i = -4 \/ i = -3 \/ i = -2 \/ i = -1 \/
          i = 0 \/ i = 1 \/ i = 2 \/ i = 3 \/ i = 4 \/ i = 5) as Hcases by lia.
  repeat (destruct Hcases as [->|Hcases]); try subst i;
    eexists; split; reflexivity.
Qed.

Lemma step_outcome_raises env request s' e :
  step_outcome env request s' = Raise e ->
  e = IndexError \/ e = OverflowError \/ e = ValueError.
Proof.
  unfold step_outcome.
  destruct (stepCount - 1 <=? ConversationStepRequest.step request).
  - destruct (mock_valuation _ _) eqn:E; cbn [obind]; [done|].
    intros [= <-]. apply mock_valuation_raises in E. tauto.
  - set (i := ConversationStepRequest.step request + 1).
    destruct (Z_lt_ge_dec i (- stepCount)) as [Hlo|Hlo];
      [rewrite py_index_flow_outside by lia; intros [= <-]; auto|].
    destruct (Z_lt_ge_dec i stepCount) as [Hhi|Hhi];
      [|rewrite py_index_flow_outside by lia; intros [= <-]; auto].
    destruct (py_index_flow_inside i ltac:(lia)) as (fs & -> & _). done.
Qed.

(** ** Unknown sessions *)

(** C8 — a Step call whose session identifier is not in the store fails with
    the client error 400 "Invalid session_id", and the store it leaves is the
    store it found: nothing is created, modified or removed. *)
Theorem unknown_session_rejected env request (σ : store) :
  σ !! ConversationStepRequest.session_id request = None ->
  conversation_step env request σ
  = (σ, Raise (HTTPException 400 "Invalid session_id")).
Proof. apply conversation_step_unknown. Qed.

Lemma unknown_session_rejected_witness :
  demo_start !! "does-not-exist" = None /\
  conversation_step demo_env
    (ConversationStepRequest.mk "co-1" "does-not-exist" 0 "revenue"
       (dyadic 2000000 0)) demo_start
  = (demo_start, Raise (HTTPException 400 "Invalid session_id")).
Proof.
  split; [vm_compute; reflexivity|].
  apply (unknown_session_rejected demo_env
           (ConversationStepRequest.mk "co-1" "does-not-exist" 0 "revenue"
              (dyadic 2000000 0)) demo_start).
  vm_compute; reflexivity.
Defined.

(** ** Isolation between sessions *)

(** C9 — a Step call aimed at session A leaves the entry of every other
    session B as it was, and both its answer and the new entry of A are the
    same in any two stores that agree on A. *)
Theorem step_isolation env request (σ σ' : store) (B : string) :
  ConversationStepRequest.session_id request <> B ->
  σ !! ConversationStepRequest.session_id request
  = σ' !! ConversationStepRequest.session_id request ->
  fst (conversation_step env request σ) !! B = σ !! B /\
  snd (conversation_step env request σ) = snd (conversation_step env request σ') /\
  fst (conversation_step env request σ) !! ConversationStepRequest.session_id request
  = fst (conversation_step env request σ') !! ConversationStepRequest.session_id request.
Proof.
  intros Hne Hagree.
  destruct (σ !! ConversationStepRequest.session_id request) as [s|] eqn:Hs.
  - rewrite (conversation_step_known env request σ s Hs).
    rewrite (conversation_step_known env request σ' s (eq_sym Hagree)).
    simpl. rewrite lookup_insert_ne by done.
    by rewrite !lookup_insert_eq.
  - rewrite (conversation_step_unknown env request σ Hs).
    rewrite (conversation_step_unknown env request σ' (eq_sym Hagree)).
    simpl. by rewrite Hs, <- Hagree.
Qed.

Lemma step_isolation_witness :
  let request := demo_request 0 "revenue" (dyadic 2000000 0) in
  let σ := <["other" := demo_other]> demo_start in
  fst (conversation_step demo_env request σ) !! "other" = Some demo_other /\
  snd (conversation_step demo_env request σ)
  = snd (conversation_step demo_env request demo_start).
Proof.
  intros request σ.
  destruct (step_isolation demo_env request σ demo_start "other")
    as (Hframe & Hsame & _).
  - vm_compute. discriminate.
  - vm_compute. reflexivity.
  - split; [|exact Hsame].
    rewrite Hframe. vm_compute. reflexivity.
Defined.

(** ** Validation bounds are not enforced *)

(** C1, counterexample — a fresh session is at ordinal 0, whose step is
    "revenue" with bounds [10000, 1000000000]; the value 500 is below the
    minimum, yet the call returns the "ebitda" prompt, the stored ordinal
    becomes 1 and 500 is recorded as the revenue. *)
Lemma out_of_range_value_accepted :
  let request := demo_request 0 "revenue" (dyadic 500 0) in
  let r := conversation_step demo_env request demo_start in
  Session.step <$> demo_session demo_start = Some 0 /\
  FlowStep.field <$> CONVERSATION_FLOW !! 0%nat = Some "revenue" /\
  FlowStep.validation <$> CONVERSATION_FLOW !! 0%nat
  = Some (Validation.mk 10000 1000000000) /\
  (SF2Q (dyadic 500 0) == 500)%Q /\
  violates (Validation.mk 10000 1000000000) (dyadic 500 0) /\
  ConversationStepResponse.next_field <$> returned (snd r) = Some (Some "ebitda") /\
  Session.step <$> demo_session (fst r) = Some 1 /\
  (demo_session (fst r) ≫= fun s => Session.data s !! "revenue")
  = Some (dyadic 500 0).
Proof.
  repeat split; try (vm_compute; reflexivity).
  left. vm_compute. reflexivity.
Qed.

(** C1, amended — on an existing session the handler checks no bound:
    whatever the value, the call writes it under the submitted field, sets
    the ordinal to the declared one plus 1, and the only exceptions it can
    end with are those of the catalog lookup and of the valuation
    arithmetic, never a client or validation error. *)
Theorem step_records_without_validation env request (σ : store) s :
  σ !! ConversationStepRequest.session_id request = Some s ->
  fst (conversation_step env request σ)
  = <[ConversationStepRequest.session_id request :=
        Session.mk (Session.company_id s)
          (ConversationStepRequest.step request + 1)
          (<[ConversationStepRequest.field request :=
               ConversationStepRequest.value request]> (Session.data s))
          (Session.started_at s)]> σ /\
  (forall e, snd (conversation_step env request σ) = Raise e ->
             e = IndexError \/ e = OverflowError \/ e = ValueError).
Proof.
  intros Hs. rewrite (conversation_step_known env request σ s Hs). simpl.
  split; [reflexivity|]. intros e. apply step_outcome_raises.
Qed.

Lemma step_records_without_validation_witness :
  let request := demo_request 0 "revenue" (dyadic 500 0) in
  demo_start !! demo_id = Some (Session.mk "co-1" 0 ∅ "2024-01-01T00:00:00") /\
  fst (conversation_step demo_env request demo_start)
  = <[demo_id := Session.mk "co-1" 1 (<["revenue" := dyadic 500 0]> ∅)
                   "2024-01-01T00:00:00"]> demo_start.
Proof.
  intros request.
  assert (demo_start !! ConversationStepRequest.session_id request
          = Some (Session.mk "co-1" 0 ∅ "2024-01-01T00:00:00")) as Hs
    by (vm_compute; reflexivity).
  split; [exact Hs|].
  exact (proj1 (step_records_without_validation demo_env request demo_start _ Hs)).
Defined.

(** ** When a call completes *)

(** C2, counterexample — on a fresh session a call that declares ordinal 6,
    which is not stepCount - 1 = 5, is answered with complete = true and a
    valuation result. *)
Lemma completion_past_last_ordinal :
  let request := demo_request 6 "country" (dyadic 1 0) in
  let r := conversation_step demo_env request demo_start in
  stepCount - 1 = 5 /\
  ConversationStepRequest.step request <> stepCount - 1 /\
  ConversationStepResponse.complete <$> returned (snd r) = Some true /\
  is_Some (returned (snd r) ≫= ConversationStepResponse.valuation_result).
Proof.
  repeat split; try (vm_compute; reflexivity).
  - vm_compute. discriminate.
  - vm_compute. eauto.
Qed.

(** C2, amended — on an existing session a returned response has
    complete = true, and carries a valuation result, exactly when the
    declared ordinal is at least stepCount - 1; every declared ordinal from
    -7 to stepCount - 2 is answered with complete = false; every declared
    ordinal from stepCount - 1 on is answered with complete = true when the
    recorded revenue is absent or finite and below 2^900. *)
Theorem completion_iff_at_or_past_last env request (σ : store) s :
  σ !! ConversationStepRequest.session_id request = Some s ->
  let declared := ConversationStepRequest.step request in
  let r := conversation_step env request σ in
  (forall resp, snd r = Return resp ->
     (ConversationStepResponse.complete resp = true <-> stepCount - 1 <= declared) /\
     (is_Some (ConversationStepResponse.valuation_result resp)
      <-> stepCount - 1 <= declared)) /\
  (-7 <= declared < stepCount - 1 ->
     exists resp, snd r = Return resp /\
                  ConversationStepResponse.complete resp = false) /\
  (stepCount - 1 <= declared ->
   revenue_moderate (<[ConversationStepRequest.field request :=
                         ConversationStepRequest.value request]> (Session.data s))
   = true ->
     exists resp, snd r = Return resp /\
                  ConversationStepResponse.complete resp = true).
Proof.
  intros Hs declared r. subst r.
  rewrite (conversation_step_known env request σ s Hs). simpl snd.
  unfold step_outcome. fold declared.
  destruct (Z.leb_spec (stepCount - 1) declared) as [Hge|Hlt].
  - split; [|split].
    + intros resp.
      destruct (mock_valuation _ _) as [v|]; cbn [obind]; [|done].
      intros [= <-]. simpl. split; split; eauto.
    + lia.
    + intros _ Hmod.
      destruct (mock_valuation_total (Env.utcnow_timestamp env) _ Hmod)
        as (v & Hv).
      simpl Session.data. rewrite Hv. cbn [obind]. eauto.
  - split; [|split].
    + intros resp.
      destruct (py_index CONVERSATION_FLOW (declared + 1)) as [fs|];
        cbn [obind]; [|done].
      intros [= <-]. simpl. split; split; try done; try lia.
    + intros Hrange.
      destruct (py_index_flow_inside (declared + 1)) as (fs & -> & _).
      { unfold stepCount in *. simpl length in *. lia. }
      cbn [obind]. eauto.
    + lia.
Qed.

Lemma completion_iff_at_or_past_last_witness :
  let request := demo_request 5 "country" (dyadic 1 0) in
  demo_start !! demo_id = Some (Session.mk "co-1" 0 ∅ "2024-01-01T00:00:00") /\
  exists resp, snd (conversation_step demo_env request demo_start) = Return resp /\
               ConversationStepResponse.complete resp = true.
Proof.
  intros request.
  assert (demo_start !! ConversationStepRequest.session_id request
          = Some (Session.mk "co-1" 0 ∅ "2024-01-01T00:00:00")) as Hs
    by (vm_compute; reflexivity).
  split; [exact Hs|].
  apply (proj2 (proj2 (completion_iff_at_or_past_last demo_env request
                         demo_start _ Hs))).
  - vm_compute. discriminate.
  - vm_compute. reflexivity.
Defined.

(** ** The stored ordinal *)

(** C3, counterexample — on a fresh session (ordinal 0) a successful call
    declaring ordinal 3 stores 4, not 0 + 1; a further successful call
    declaring ordinal 0 stores 1, which is below 4. *)
Lemma ordinal_jumps_and_falls :
  let r1 := conversation_step demo_env (demo_request 3 "industry" (dyadic 7 0))
              demo_start in
  let r2 := conversation_step demo_env
              (demo_request 0 "revenue" (dyadic 2000000 0)) (fst r1) in
  Session.step <$> demo_session demo_start = Some 0 /\
  is_Some (returned (snd r1)) /\
  Session.step <$> demo_session (fst r1) = Some 4 /\
  is_Some (returned (snd r2)) /\
  Session.step <$> demo_session (fst r2) = Some 1.
Proof.
  repeat split; try (vm_compute; reflexivity); vm_compute; eauto.
Qed.

(** C3, amended — after a Step call on an existing session the stored
    ordinal is the declared ordinal plus 1; it is the previous stored ordinal
    plus 1 exactly when the declared ordinal is the stored one, and it is
    lower than before exactly when the declared ordinal plus 1 is. *)
Theorem step_sets_declared_plus_one env request (σ : store) s :
  σ !! ConversationStepRequest.session_id request = Some s ->
  let declared := ConversationStepRequest.step request in
  exists s',
    fst (conversation_step env request σ)
      !! ConversationStepRequest.session_id request = Some s' /\
    Session.step s' = declared + 1 /\
    (Session.step s' = Session.step s + 1 <-> declared = Session.step s) /\
    (Session.step s' < Session.step s <-> declared + 1 < Session.step s).
Proof.
  intros Hs declared.
  rewrite (conversation_step_known env request σ s Hs). simpl fst.
  exists (answered request s). rewrite lookup_insert_eq.
  simpl. fold declared. repeat split; lia.
Qed.

Lemma step_sets_declared_plus_one_witness :
  let request := demo_request 3 "industry" (dyadic 7 0) in
  demo_start !! demo_id = Some (Session.mk "co-1" 0 ∅ "2024-01-01T00:00:00") /\
  exists s', fst (conversation_step demo_env request demo_start) !! demo_id
             = Some s' /\ Session.step s' = 4.
Proof.
  intros request.
  assert (demo_start !! ConversationStepRequest.session_id request
          = Some (Session.mk "co-1" 0 ∅ "2024-01-01T00:00:00")) as Hs
    by (vm_compute; reflexivity).
  split; [exact Hs|].
  destruct (step_sets_declared_plus_one demo_env request demo_start _ Hs)
    as (s' & Hs' & Hstep & _).
  exists s'. split; [exact Hs' | exact Hstep].
Defined.

(** ** The valuation result *)

Lemma literals_nearest :
  (SF2Q f2_5 == 5 # 2)%Q /\
  (Qabs (SF2Q f0_8 - (4 # 5)) <= 1 # 2 ^ 54)%Q /\
  (Qabs (SF2Q f1_2 - (6 # 5)) <= 1 # 2 ^ 53)%Q /\
  (Qabs (SF2Q f0_2 - (1 # 5)) <= 1 # 2 ^ 56)%Q /\
  (Qabs (SF2Q f0_85 - (17 # 20)) <= 1 # 2 ^ 54)%Q.
Proof. repeat split; vm_compute; congruence. Qed.

Lemma mock_valuation_inv now d v :
  mock_valuation now d = Return v ->
  let revenue := data_get d "revenue" (PyInt 1000000) in
  exists e0 p plo phi valuation lo hi,
    py_mul revenue f0_2 = Return e0 /\
    py_mul revenue f2_5 = Return p /\ py_int p = Return valuation /\
    py_mul (PyInt valuation) f0_8 = Return plo /\ py_int plo = Return lo /\
    py_mul (PyInt valuation) f1_2 = Return phi /\ py_int phi = Return hi /\
    v = ValuationResult.mk ("val_" +:+ pretty now) valuation
          (Validation.mk lo hi) f0_85 "DCF + Market Multiples" "Demo Company"
          revenue (data_get d "ebitda" (PyFloat e0))
          (data_get d "employees" (PyInt 10))
          (data_get d "industry" (PyStr "Technology"))
          (data_get d "country" (PyStr "Belgium"))
          (data_get d "growth_rate" (PyInt 15)).
Proof.
  intros H revenue. unfold mock_valuation in H. fold revenue in H.
  destruct (py_mul revenue f0_2) as [e0|] eqn:E0; cbn [obind] in H; [|done].
  destruct (py_mul revenue f2_5) as [p|] eqn:E1; cbn [obind] in H; [|done].
  destruct (py_int p) as [valuation|] eqn:E2; cbn [obind] in H; [|done].
  destruct (py_mul (PyInt valuation) f0_8) as [plo|] eqn:E3;
    cbn [obind] in H; [|done].
  destruct (py_int plo) as [lo|] eqn:E4; cbn [obind] in H; [|done].
  destruct (py_mul (PyInt valuation) f1_2) as [phi|] eqn:E5;
    cbn [obind] in H; [|done].
  destruct (py_int phi) as [hi|] eqn:E6; cbn [obind] in H; [|done].
  injection H as <-.
  exists e0, p, plo, phi, valuation, lo, hi. repeat split; assumption.
Qed.

Lemma step_completes_inv env request (σ : store) s resp :
  σ !! ConversationStepRequest.session_id request = Some s ->
  snd (conversation_step env request σ) = Return resp ->
  ConversationStepResponse.complete resp = true ->
  exists v, resp = complete_response v /\
            mock_valuation (Env.utcnow_timestamp env)
              (Session.data (answered request s)) = Return v.
Proof.
  intros Hs. rewrite (conversation_step_known env request σ s Hs). simpl snd.
  unfold step_outcome.
  destruct (stepCount - 1 <=? ConversationStepRequest.step request).
  - destruct (mock_valuation _ _) as [v|]; cbn [obind]; [|done].
    intros [= <-] _. eauto.
  - destruct (py_index _ _) as [fs|]; cbn [obind]; [|done].
    intros [= <-]. done.
Qed.

(** C4, counterexample — on a fresh session a single call declaring
    ordinal 5 with the field "country" produces a valuation result while the
    answer mapping holds "country" only; revenue, employees and industry of
    the result are the fallback values. *)
Lemma result_from_defaults :
  let r := conversation_step demo_env (demo_request 5 "country" (dyadic 1 0))
             demo_start in
  let v := returned (snd r) ≫= ConversationStepResponse.valuation_result in
  ConversationStepResponse.complete <$> returned (snd r) = Some true /\
  dom <$> (Session.data <$> demo_session (fst r)) = Some {["country"]} /\
  ValuationResult.revenue <$> v = Some (PyInt 1000000) /\
  ValuationResult.employees <$> v = Some (PyInt 10) /\
  ValuationResult.industry <$> v = Some (PyStr "Technology") /\
  ValuationResult.equity_value <$> v = Some 2500000.
Proof. repeat split; vm_compute; reflexivity. Qed.

(** C4, amended — whenever a Step call produces a valuation result, the
    answer mapping holds the value of that call under its field, and each of
    the six fields echoed in the result is the recorded answer when there is
    one and otherwise its fallback: revenue 1000000, ebitda revenue * 0.2,
    employees 10, industry "Technology", country "Belgium", growth rate 15. *)
Theorem result_echoes_answers_or_defaults env request (σ : store) s resp :
  σ !! ConversationStepRequest.session_id request = Some s ->
  snd (conversation_step env request σ) = Return resp ->
  ConversationStepResponse.complete resp = true ->
  exists v s' e0,
    ConversationStepResponse.valuation_result resp = Some v /\
    fst (conversation_step env request σ)
      !! ConversationStepRequest.session_id request = Some s' /\
    Session.data s' !! ConversationStepRequest.field request
    = Some (ConversationStepRequest.value request) /\
    ValuationResult.revenue v
    = data_get (Session.data s') "revenue" (PyInt 1000000) /\
    py_mul (ValuationResult.revenue v) f0_2 = Return e0 /\
    ValuationResult.ebitda v = data_get (Session.data s') "ebitda" (PyFloat e0) /\
    ValuationResult.employees v
    = data_get (Session.data s') "employees" (PyInt 10) /\
    ValuationResult.industry v
    = data_get (Session.data s') "industry" (PyStr "Technology") /\
    ValuationResult.country v
    = data_get (Session.data s') "country" (PyStr "Belgium") /\
    ValuationResult.growth_rate v
    = data_get (Session.data s') "growth_rate" (PyInt 15).
Proof.
  intros Hs Hret Hcomplete.
  destruct (step_completes_inv env request σ s resp Hs Hret Hcomplete)
    as (v & -> & Hv).
  destruct (mock_valuation_inv _ _ _ Hv)
    as (e0 & p & plo & phi & valuation & lo & hi & He0 & _ & _ & _ & _ & _ & _ & ->).
  rewrite (conversation_step_known env request σ s Hs). simpl fst.
  eexists _, (answered request s), e0. rewrite lookup_insert_eq.
  simpl. rewrite lookup_insert_eq. repeat split; try reflexivity. exact He0.
Qed.

Lemma result_echoes_answers_or_defaults_witness :
  let request := demo_request 5 "country" (dyadic 1 0) in
  exists resp v,
    snd (conversation_step demo_env request demo_start) = Return resp /\
    ConversationStepResponse.valuation_result resp = Some v /\
    ValuationResult.industry v = PyStr "Technology".
Proof.
  intros request.
  assert (demo_start !! ConversationStepRequest.session_id request
          = Some (Session.mk "co-1" 0 ∅ "2024-01-01T00:00:00")) as Hs
    by (vm_compute; reflexivity).
  destruct (snd (conversation_step demo_env request demo_start)) as [resp|e] eqn:Hr;
    [|vm_compute in Hr; discriminate Hr].
  assert (ConversationStepResponse.complete resp = true) as Hc.
  { vm_compute in Hr. injection Hr as <-. reflexivity. }
  destruct (result_echoes_answers_or_defaults demo_env request demo_start _ resp
              Hs Hr Hc)
    as (v & s' & e0 & Hv & Hs' & _ & _ & _ & _ & _ & Hind & _).
  exists resp, v. split; [reflexivity|]. split; [exact Hv|].
  rewrite Hind.
  assert (s' = answered request (Session.mk "co-1" 0 ∅ "2024-01-01T00:00:00")) as ->.
  { rewrite (conversation_step_known demo_env request demo_start _ Hs) in Hs'.
    simpl in Hs'. rewrite lookup_insert_eq in Hs'. by injection Hs'. }
  vm_compute. reflexivity.
Defined.

(** C6, counterexample — with revenue 10000.25 recorded, the product
    revenue * 2.5 is 25000.625, whose nearest integer is 25001; the estimate
    of the completing call is 25000. *)
Lemma estimate_truncated_not_rounded :
  let revenue := dyadic 40001 (-2) in
  let r := conversation_step demo_env (demo_request 5 "country" (dyadic 7 0))
             demo_quarter_revenue in
  let v := returned (snd r) ≫= ConversationStepResponse.valuation_result in
  (SF2Q revenue == 40001 # 4)%Q /\
  (demo_session (fst r) ≫= fun s => Session.data s !! "revenue") = Some revenue /\
  ValuationResult.equity_value <$> v = Some 25000 /\
  nearest_integer (SF2Q revenue * (5 # 2)) 25001 /\
  ~ nearest_integer (SF2Q revenue * (5 # 2)) 25000.
Proof.
  repeat split; try (vm_compute; reflexivity).
  - vm_compute. discriminate.
  - vm_compute. intros H. apply H. reflexivity.
Qed.

(** C6, amended — the result of a completing Step call has: estimate =
    revenue * 2.5 truncated toward zero, range low = estimate * 0.8
    truncated, range high = estimate * 1.2 truncated (the products being
    float products), confidence 0.85 and the methodology
    "DCF + Market Multiples", where revenue is the recorded one, or 1000000
    when none is recorded; any other completing call that leaves the same
    answer mapping produces the same result up to its identifier. *)
Theorem valuation_truncates env request (σ : store) s resp :
  σ !! ConversationStepRequest.session_id request = Some s ->
  snd (conversation_step env request σ) = Return resp ->
  ConversationStepResponse.complete resp = true ->
  let d := <[ConversationStepRequest.field request :=
               ConversationStepRequest.value request]> (Session.data s) in
  let revenue := data_get d "revenue" (PyInt 1000000) in
  exists v p plo phi,
    ConversationStepResponse.valuation_result resp = Some v /\
    py_mul revenue f2_5 = Return p /\
    ValuationResult.equity_value v = Qtruncate (SF2Q p) /\
    py_mul (PyInt (ValuationResult.equity_value v)) f0_8 = Return plo /\
    Validation.min (ValuationResult.valuation_range v) = Qtruncate (SF2Q plo) /\
    py_mul (PyInt (ValuationResult.equity_value v)) f1_2 = Return phi /\
    Validation.max (ValuationResult.valuation_range v) = Qtruncate (SF2Q phi) /\
    ValuationResult.confidence_score v = f0_85 /\
    ValuationResult.methodology v = "DCF + Market Multiples" /\
    forall env' request' (σ' : store) s' resp',
      σ' !! ConversationStepRequest.session_id request' = Some s' ->
      snd (conversation_step env' request' σ') = Return resp' ->
      ConversationStepResponse.complete resp' = true ->
      <[ConversationStepRequest.field request' :=
          ConversationStepRequest.value request']> (Session.data s') = d ->
      erase_id <$> ConversationStepResponse.valuation_result resp'
      = Some (erase_id v).
Proof.
  intros Hs Hret Hcomplete d revenue.
  destruct (step_completes_inv env request σ s resp Hs Hret Hcomplete)
    as (v & -> & Hv).
  change (Session.data (answered request s)) with d in Hv.
  destruct (mock_valuation_inv _ _ _ Hv)
    as (e0 & p & plo & phi & valuation & lo & hi
        & He0 & Hp & Hval & Hplo & Hlo & Hphi & Hhi & Heq).
  fold revenue in He0, Hp, Heq.
  exists v, p, plo, phi. subst v. simpl.
  repeat split; try assumption; try (by apply py_int_truncates).
  intros env' request' σ' s' resp' Hs' Hret' Hcomplete' Hd.
  destruct (step_completes_inv env' request' σ' s' resp' Hs' Hret' Hcomplete')
    as (v' & -> & Hv').
  change (Session.data (answered request' s'))
    with (<[ConversationStepRequest.field request' :=
              ConversationStepRequest.value request']> (Session.data s')) in Hv'.
  rewrite Hd in Hv'.
  destruct (mock_valuation_inv _ _ _ Hv')
    as (e0' & p' & plo' & phi' & valuation' & lo' & hi'
        & He0' & Hp' & Hval' & Hplo' & Hlo' & Hphi' & Hhi' & Heq').
  fold revenue in He0', Hp', Heq'.
  rewrite He0 in He0'. injection He0' as <-.
  rewrite Hp in Hp'. injection Hp' as <-.
  rewrite Hval in Hval'. injection Hval' as <-.
  rewrite Hplo in Hplo'. injection Hplo' as <-.
  rewrite Hlo in Hlo'. injection Hlo' as <-.
  rewrite Hphi in Hphi'. injection Hphi' as <-.
  rewrite Hhi in Hhi'. injection Hhi' as <-.
  subst v'. reflexivity.
Qed.

Lemma valuation_truncates_witness :
  let request := demo_request 5 "country" (dyadic 7 0) in
  exists resp v,
    snd (conversation_step demo_env request demo_five_answers) = Return resp /\
    ConversationStepResponse.valuation_result resp = Some v /\
    ValuationResult.confidence_score v = f0_85.
Proof.
  intros request.
  destruct (demo_five_answers !! ConversationStepRequest.session_id request)
    as [s|] eqn:Hs; [|vm_compute in Hs; discriminate Hs].
  destruct (snd (conversation_step demo_env request demo_five_answers))
    as [resp|e] eqn:Hr; [|vm_compute in Hr; discriminate Hr].
  assert (ConversationStepResponse.complete resp = true) as Hc.
  { vm_compute in Hr. injection Hr as <-. reflexivity. }
  destruct (valuation_truncates demo_env request demo_five_answers s resp
              Hs Hr Hc)
    as (v & p & plo & phi & Hv & _ & _ & _ & _ & _ & _ & Hconf & _).
  exists resp, v. split; [reflexivity|]. split; [exact Hv | exact Hconf].
Defined.

(** ** Text values *)

Lemma text_without_float_rejected float_of_str env body (σ : store) t :
  StepBody.value body = JString t -> float_of_str t = None ->
  step_endpoint float_of_str env body σ
  = (σ, Raise (RequestValidationError "value")).
Proof.
  intros Hv Ht. unfold step_endpoint, bind, lift, parse_step_request.
  rewrite Hv. simpl. rewrite Ht. reflexivity.
Qed.

(** The final step of the example scenario when the country is given as a
    number: the call completes with estimate 5000000 and range
    [4000000, 6000000]. *)
Lemma final_step_numeric_estimate float_of_str :
  let body := StepBody.mk "co-1" demo_id 5 "country" (JNumber (dyadic 7 0)) in
  let r := step_endpoint float_of_str demo_env body demo_five_answers in
  let v := returned (snd r) ≫= ConversationStepResponse.valuation_result in
  (demo_session demo_five_answers ≫= fun s => Session.data s !! "revenue")
  = Some (dyadic 2000000 0) /\
  ConversationStepResponse.complete <$> returned (snd r) = Some true /\
  ValuationResult.equity_value <$> v = Some 5000000 /\
  ValuationResult.valuation_range <$> v = Some (Validation.mk 4000000 6000000).
Proof. repeat split; vm_compute; reflexivity. Qed.

(** C5 — the final step of the example scenario with the text value
    "Belgium": the request model types [value] as a float, "Belgium" is not
    the text of a float, so the request is refused before the handler runs;
    there is no response with complete = true and the store is as before. *)
Theorem text_value_rejected float_of_str :
  float_of_str "Belgium" = None ->
  let body := StepBody.mk "co-1" demo_id 5 "country" (JString "Belgium") in
  step_endpoint float_of_str demo_env body demo_five_answers
  = (demo_five_answers, Raise (RequestValidationError "value")).
Proof.
  intros Hnone body.
  by apply (text_without_float_rejected float_of_str demo_env body
              demo_five_answers "Belgium").
Qed.

Lemma text_value_rejected_witness :
  decimal_to_float "Belgium" = None /\
  decimal_to_float "2000000" = Some (dyadic 2000000 0) /\
  returned (snd (step_endpoint decimal_to_float demo_env
                   (StepBody.mk "co-1" demo_id 5 "country" (JString "Belgium"))
                   demo_five_answers)) = None.
Proof.
  split; [vm_compute; reflexivity|]. split; [vm_compute; reflexivity|].
  rewrite (text_value_rejected decimal_to_float); [reflexivity|].
  vm_compute; reflexivity.
Defined.

(** ** Negative declared ordinals *)

(** C10 — on an existing session a declared ordinal from -6 to -2 is
    answered with complete = false and the data of the catalog entry counted
    from the end (index stepCount + declared + 1, "country" for -2): the
    response carries that entry's prompt, step, field, input type, help text
    and bounds, and neither result nor error; the negative ordinal
    declared + 1 is stored; the call ends with the lookup error exactly when
    the declared ordinal is -8 or less. *)
Theorem negative_ordinal_wraps env request (σ : store) s :
  σ !! ConversationStepRequest.session_id request = Some s ->
  let declared := ConversationStepRequest.step request in
  let r := conversation_step env request σ in
  (-6 <= declared <= -2 ->
     exists fs,
       CONVERSATION_FLOW !! Z.to_nat (stepCount + (declared + 1)) = Some fs /\
       snd r = Return (ConversationStepResponse.mk false
                         (FlowStep.ai_message_template fs)
                         (Some (FlowStep.step fs))
                         (Some (FlowStep.field fs))
                         (Some (FlowStep.input_type fs))
                         (Some (FlowStep.help_text fs))
                         (Some (FlowStep.validation fs))
                         None None) /\
       FlowStep.step fs = stepCount + (declared + 1) /\
       ConversationStepResponse.complete <$> returned (snd r) = Some false /\
       Session.step <$> fst r !! ConversationStepRequest.session_id request
       = Some (declared + 1) /\
       declared + 1 < 0) /\
  (declared = -2 ->
     ConversationStepResponse.next_field <$> returned (snd r)
     = Some (Some "country")) /\
  (snd r = Raise IndexError <-> declared <= -8).
Proof.
  intros Hs declared r. subst r.
  rewrite (conversation_step_known env request σ s Hs). simpl fst. simpl snd.
  rewrite lookup_insert_eq. unfold step_outcome. fold declared. simpl fmap.
  fold declared.
  split; [|split].
  - intros Hrange.
    assert (declared = -6 \/ declared = -5 \/ declared = -4 \/ declared = -3 \/
            declared = -2) as Hcases by lia.
    repeat (destruct Hcases as [->|Hcases]); try rewrite Hcases;
      eexists; repeat split; reflexivity.
  - intros ->. reflexivity.
  - destruct (Z.leb_spec (stepCount - 1) declared) as [Hge|Hlt].
    + unfold stepCount in Hge. simpl length in Hge. split; [|lia].
      destruct (mock_valuation _ _) as [v|e] eqn:E; cbn [obind]; [done|].
      intros [= ->]. apply mock_valuation_raises in E as [|]; done.
    + unfold stepCount in Hlt. simpl length in Hlt.
      destruct (Z_le_gt_dec declared (-8)) as [Hlo|Hlo].
      * rewrite py_index_flow_outside
          by (unfold stepCount; simpl length; lia).
        split; [lia | reflexivity].
      * destruct (py_index_flow_inside (declared + 1)) as (fs & -> & _);
          [unfold stepCount; simpl length; lia|].
        cbn [obind]. split; [done | lia].
Qed.

Lemma negative_ordinal_wraps_witness :
  let request := demo_request (-2) "country" (dyadic 7 0) in
  demo_start !! demo_id = Some (Session.mk "co-1" 0 ∅ "2024-01-01T00:00:00") /\
  snd (conversation_step demo_env request demo_start)
  = Return (ConversationStepResponse.mk false
              "Finally, what country is your company based in?"
              (Some 5) (Some "country") (Some "text")
              (Some "What country is your company based in?")
              (Some (Validation.mk 2 50)) None None) /\
  Session.step <$> demo_session (fst (conversation_step demo_env request demo_start))
  = Some (-1).
Proof.
  intros request.
  assert (demo_start !! ConversationStepRequest.session_id request
          = Some (Session.mk "co-1" 0 ∅ "2024-01-01T00:00:00")) as Hs
    by (vm_compute; reflexivity).
  split; [exact Hs|].
  destruct (proj1 (negative_ordinal_wraps demo_env request demo_start _ Hs))
    as (fs & Hfs & Hret & _ & _ & Hstep & _).
  - vm_compute. split; discriminate.
  - vm_compute in Hfs. injection Hfs as <-.
    split; [exact Hret | exact Hstep].
Defined.

(** ** Reachable sessions *)

Lemma fields_below_succ n fs :
  0 <= n -> CONVERSATION_FLOW !! Z.to_nat n = Some fs ->
  fields_below (n + 1) = {[FlowStep.field fs]} ∪ fields_below n.
Proof.
  intros Hn Hfs. unfold fields_below.
  replace (Z.to_nat (n + 1)) with (S (Z.to_nat n)) by lia.
  rewrite (take_S_r _ _ _ Hfs), fmap_app, list_to_set_app_L. simpl.
  by rewrite union_empty_r_L, (comm_L (∪)).
Qed.

Lemma in_sequence_sessions (σ : store) :
  reachable_in_sequence σ ->
  forall sid s, σ !! sid = Some s ->
    0 <= Session.step s <= stepCount /\
    dom (Session.data s) = fields_below (Session.step s).
Proof.
  induction 1 as [|env request σ _ IH|env request σ _ IH Hseq]; intros sid s.
  - by rewrite lookup_empty.
  - rewrite start_conversation_store.
    destruct (decide (Env.uuid4 env = sid)) as [->|Hne].
    + rewrite lookup_insert_eq. intros [= <-]. simpl.
      split; [unfold stepCount; simpl; lia|].
      by rewrite dom_empty_L.
    + rewrite lookup_insert_ne by done. apply IH.
  - unfold in_sequence in Hseq.
    destruct (σ !! ConversationStepRequest.session_id request) as [s0|] eqn:Hs0.
    + destruct Hseq as (Hpos & Hdecl & fs & Hfs & Hfield).
      destruct (IH _ _ Hs0) as (_ & Hdom).
      rewrite (conversation_step_known env request σ s0 Hs0). simpl fst.
      destruct (decide (ConversationStepRequest.session_id request = sid))
        as [->|Hne].
      * rewrite lookup_insert_eq. intros [= <-]. simpl.
        pose proof (lookup_lt_Some _ _ _ Hfs) as Hlen.
        rewrite Hdecl. split.
        -- unfold stepCount. lia.
        -- rewrite dom_insert_L, Hdom, Hfield.
           symmetry. by apply fields_below_succ.
      * rewrite lookup_insert_ne by done. apply IH.
    + rewrite (conversation_step_unknown env request σ Hs0). apply IH.
Qed.

(** C7, counterexample — after Start and one Step call that declares
    ordinal 10 the stored ordinal is 11, outside [0, stepCount]; the call was
    answered with a result although only one field is recorded, and a further
    call moves the ordinal of that session to 1. *)
Lemma ordinal_outside_range_reachable :
  let r := conversation_step demo_env (demo_request 10 "country" (dyadic 7 0))
             demo_start in
  let r' := conversation_step demo_env
              (demo_request 0 "revenue" (dyadic 2000000 0)) (fst r) in
  reachable (fst r) /\
  stepCount = 6 /\
  Session.step <$> demo_session (fst r) = Some 11 /\
  dom <$> (Session.data <$> demo_session (fst r)) = Some {["country"]} /\
  ConversationStepResponse.complete <$> returned (snd r) = Some true /\
  Session.step <$> demo_session (fst r') = Some 1.
Proof.
  split; [|repeat split; vm_compute; reflexivity].
  apply reachable_step. unfold demo_start.
  apply reachable_start. apply reachable_empty.
Qed.

(** C7, amended — when every Step call on an existing session declares the
    stored ordinal of that session and names the catalog field at that
    ordinal, every reachable session has its ordinal in [0, stepCount] and
    has answers for exactly the fields of the steps below its ordinal; at
    ordinal stepCount every field is answered and no Step call in sequence
    exists for the session.  The handler itself accepts any Step call on any
    existing session and sets its ordinal to the declared ordinal plus 1. *)
Theorem in_sequence_invariant (σ : store) sid s :
  reachable_in_sequence σ -> σ !! sid = Some s ->
  0 <= Session.step s <= stepCount /\
  dom (Session.data s) = fields_below (Session.step s) /\
  (Session.step s = stepCount ->
     (forall fs, fs ∈ CONVERSATION_FLOW ->
                 is_Some (Session.data s !! FlowStep.field fs)) /\
     (forall request, ConversationStepRequest.session_id request = sid ->
                      ~ in_sequence σ request)) /\
  (forall env request,
     ConversationStepRequest.session_id request = sid ->
     Session.step <$> fst (conversation_step env request σ) !! sid
     = Some (ConversationStepRequest.step request + 1)).
Proof.
  intros Hreach Hs.
  destruct (in_sequence_sessions σ Hreach sid s Hs) as (Hrange & Hdom).
  split; [exact Hrange|]. split; [exact Hdom|]. split.
  - intros Hlast. split.
    + intros fs Hfs. apply elem_of_dom. rewrite Hdom, Hlast.
      unfold fields_below. apply elem_of_list_to_set.
      apply list_elem_of_fmap. exists fs. split; [reflexivity|].
      exact Hfs.
    + intros request <- Hseq. unfold in_sequence in Hseq. rewrite Hs in Hseq.
      destruct Hseq as (_ & _ & fs & Hfs & _).
      rewrite Hlast in Hfs. vm_compute in Hfs. discriminate Hfs.
  - intros env request <-.
    rewrite (conversation_step_known env request σ s Hs). simpl fst.
    by rewrite lookup_insert_eq.
Qed.

Ltac solve_in_sequence :=
  unfold in_sequence;
  match goal with
  | |- match ?l with _ => _ end =>
      let E := fresh "E" in
      destruct l eqn:E;
      [ vm_compute in E; injection E as <-; simpl;
        split; [lia | split; [reflexivity | eexists; split; reflexivity]]
      | exact I ]
  end.

Lemma demo_six_answers_in_sequence : reachable_in_sequence demo_six_answers.
Proof.
  unfold demo_six_answers, demo_five_answers, demo_steps, demo_start.
  cbn [foldl].
  repeat (apply in_sequence_step; [|solve_in_sequence]).
  apply in_sequence_start. apply in_sequence_empty.
Qed.

Lemma in_sequence_invariant_witness :
  reachable_in_sequence demo_six_answers /\
  exists s, demo_six_answers !! demo_id = Some s /\
            Session.step s = stepCount /\
            dom (Session.data s) = fields_below stepCount.
Proof.
  split; [exact demo_six_answers_in_sequence|].
  destruct (demo_six_answers !! demo_id) as [s|] eqn:Hs;
    [|vm_compute in Hs; discriminate Hs].
  exists s. split; [reflexivity|].
  destruct (in_sequence_invariant demo_six_answers demo_id s
              demo_six_answers_in_sequence Hs) as (_ & Hdom & _ & _).
  assert (Session.step s = stepCount) as Hstep.
  { vm_compute in Hs. injection Hs as <-. reflexivity. }
  split; [exact Hstep|]. rewrite <- Hstep. exact Hdom.
Defined.

(** * Further properties of the engine *)

(** ** Retries and order of calls *)

Lemma answered_twice request s :
  answered request (answered request s) = answered request s.
Proof. unfold answered. simpl. by rewrite insert_insert_eq. Qed.

Lemma mock_valuation_other_time now now' d :
  mock_valuation now' d
  = match mock_valuation now d with
    | Return v =>
        Return (ValuationResult.mk ("val_" +:+ pretty now')
                  (ValuationResult.equity_value v)
                  (ValuationResult.valuation_range v)
                  (ValuationResult.confidence_score v)
                  (ValuationResult.methodology v)
                  (ValuationResult.company_name v)
                  (ValuationResult.revenue v) (ValuationResult.ebitda v)
                  (ValuationResult.employees v) (ValuationResult.industry v)
                  (ValuationResult.country v) (ValuationResult.growth_rate v))
    | Raise e => Raise e
    end.
Proof.
  unfold mock_valuation.
  destruct (py_mul _ f0_2); cbn [obind]; [|done].
  destruct (py_mul _ f2_5) as [p|]; cbn [obind]; [|done].
  destruct (py_int p) as [valuation|]; cbn [obind]; [|done].
  destruct (py_mul (PyInt valuation) f0_8) as [plo|]; cbn [obind]; [|done].
  destruct (py_int plo); cbn [obind]; [|done].
  destruct (py_mul (PyInt valuation) f1_2) as [phi|]; cbn [obind]; [|done].
  destruct (py_int phi); cbn [obind]; done.
Qed.

Lemma step_outcome_other_time env env' request s' :
  (Env.utcnow_timestamp env' = Env.utcnow_timestamp env ->
   step_outcome env' request s' = step_outcome env request s') /\
  outcome_without_id (step_outcome env' request s')
  = outcome_without_id (step_outcome env request s').
Proof.
  unfold step_outcome. split; [by intros ->|].
  destruct (stepCount - 1 <=? ConversationStepRequest.step request); [|done].
  rewrite (mock_valuation_other_time (Env.utcnow_timestamp env)
             (Env.utcnow_timestamp env')).
  by destruct (mock_valuation (Env.utcnow_timestamp env) _).
Qed.

(** X1 — serving the same Step call again, at any time, in the store the
    first service left: the retry leaves that store as it is, and it is
    answered as the call would have been answered in the original store at
    the time of the retry; so the answer is the first one when the retry is
    served in the same timestamp second, and otherwise differs from the
    first one at most in the identifier of the result. *)
Theorem step_retry_idempotent env env' request (σ : store) :
  let first := conversation_step env request σ in
  let retry := conversation_step env' request (fst first) in
  fst retry = fst first /\
  snd retry = snd (conversation_step env' request σ) /\
  (Env.utcnow_timestamp env' = Env.utcnow_timestamp env ->
   snd retry = snd first) /\
  outcome_without_id (snd retry) = outcome_without_id (snd first).
Proof.
  intros first retry. subst first retry.
  destruct (σ !! ConversationStepRequest.session_id request) as [s|] eqn:Hs.
  - rewrite (conversation_step_known env request σ s Hs). simpl fst.
    rewrite (conversation_step_known env' request _ (answered request s))
      by apply lookup_insert_eq.
    rewrite (conversation_step_known env' request σ s Hs).
    rewrite insert_insert_eq, answered_twice. simpl.
    destruct (step_outcome_other_time env env' request (answered request s))
      as (Hsame & Hid).
    repeat split; done.
  - rewrite (conversation_step_unknown env request σ Hs). simpl fst.
    rewrite (conversation_step_unknown env' request σ Hs). simpl.
    repeat split; done.
Qed.

(** A retry one second later: the same store, the same result under another
    identifier. *)
Lemma step_retry_a_second_later :
  let request := demo_request 5 "country" (dyadic 7 0) in
  let later := Env.mk (Env.uuid4 demo_env) (Env.utcnow_isoformat demo_env)
                 (Env.utcnow_timestamp demo_env + 1) in
  let first := conversation_step demo_env request demo_five_answers in
  let retry := conversation_step later request (fst first) in
  fst retry = fst first /\
  (ValuationResult.valuation_id
     <$> (returned (snd first) ≫= ConversationStepResponse.valuation_result))
  = Some "val_1704067200" /\
  (ValuationResult.valuation_id
     <$> (returned (snd retry) ≫= ConversationStepResponse.valuation_result))
  = Some "val_1704067201" /\
  (ValuationResult.equity_value
     <$> (returned (snd retry) ≫= ConversationStepResponse.valuation_result))
  = Some 5000000.
Proof. repeat split; vm_compute; reflexivity. Qed.

(** X2 — Step calls aimed at two different sessions commute: either order
    leaves the same store, and each call is answered as if the other had not
    been served. *)
Theorem steps_on_distinct_sessions_commute env1 env2 request1 request2
    (σ : store) :
  ConversationStepRequest.session_id request1
  <> ConversationStepRequest.session_id request2 ->
  fst (conversation_step env1 request1 (fst (conversation_step env2 request2 σ)))
  = fst (conversation_step env2 request2 (fst (conversation_step env1 request1 σ)))
  /\ snd (conversation_step env1 request1 (fst (conversation_step env2 request2 σ)))
     = snd (conversation_step env1 request1 σ)
  /\ snd (conversation_step env2 request2 (fst (conversation_step env1 request1 σ)))
     = snd (conversation_step env2 request2 σ).
Proof.
  intros Hne.
  set (sid1 := ConversationStepRequest.session_id request1) in *.
  set (sid2 := ConversationStepRequest.session_id request2) in *.
  destruct (σ !! sid1) as [s1|] eqn:H1; destruct (σ !! sid2) as [s2|] eqn:H2.
  - rewrite (conversation_step_known env2 request2 σ s2 H2).
    rewrite (conversation_step_known env1 request1 σ s1 H1). simpl fst.
    rewrite (conversation_step_known env1 request1 _ s1)
      by (fold sid1 sid2; by rewrite lookup_insert_ne).
    rewrite (conversation_step_known env2 request2 _ s2)
      by (fold sid1 sid2; by rewrite lookup_insert_ne).
    simpl. fold sid1 sid2. split; [|done].
    by apply insert_insert_ne.
  - rewrite (conversation_step_unknown env2 request2 σ H2). simpl fst.
    rewrite (conversation_step_known env1 request1 σ s1 H1). simpl fst.
    rewrite (conversation_step_unknown env2 request2 _)
      by (fold sid1 sid2; by rewrite lookup_insert_ne).
    done.
  - rewrite (conversation_step_unknown env1 request1 σ H1). simpl fst.
    rewrite (conversation_step_known env2 request2 σ s2 H2). simpl fst.
    rewrite (conversation_step_unknown env1 request1 _)
      by (fold sid1 sid2; by rewrite lookup_insert_ne).
    done.
  - rewrite (conversation_step_unknown env2 request2 σ H2). simpl fst.
    rewrite (conversation_step_unknown env1 request1 σ H1). simpl fst.
    rewrite (conversation_step_unknown env2 request2 σ H2).
    done.
Qed.

Lemma steps_on_distinct_sessions_commute_witness :
  let request1 := demo_request 0 "revenue" (dyadic 2000000 0) in
  let request2 := ConversationStepRequest.mk "co-2" "other" 3 "industry"
                    (dyadic 7 0) in
  let σ := <["other" := demo_other]> demo_start in
  fst (conversation_step demo_env request1
         (fst (conversation_step demo_env request2 σ)))
  = fst (conversation_step demo_env request2
           (fst (conversation_step demo_env request1 σ))).
Proof.
  intros request1 request2 σ.
  apply (steps_on_distinct_sessions_commute demo_env demo_env request1 request2 σ).
  vm_compute. discriminate.
Defined.

(** ** Runs of calls *)

Lemma conversation_step_frame env request (σ : store) B :
  ConversationStepRequest.session_id request <> B ->
  fst (conversation_step env request σ) !! B = σ !! B.
Proof.
  intros Hne.
  destruct (σ !! ConversationStepRequest.session_id request) as [s|] eqn:Hs.
  - rewrite (conversation_step_known env request σ s Hs). simpl.
    by rewrite lookup_insert_ne.
  - by rewrite (conversation_step_unknown env request σ Hs).
Qed.

Lemma run_steps_snoc calls c (σ : store) :
  run_steps (calls ++ [c]) σ
  = fst (conversation_step (fst c) (snd c) (run_steps calls σ)).
Proof. unfold run_steps. by rewrite foldl_app. Qed.

(** X3 — after any run of Step calls a session holds, for each field, the
    value of the last call of the run that answered that field of that
    session (or what it held before, if there is none), its ordinal is the
    declared ordinal of the last call aimed at it plus 1 (or the old one),
    and its subject and creation time are as before. *)
Theorem last_answer_wins calls (σ : store) sid s :
  σ !! sid = Some s ->
  exists s',
    run_steps calls σ !! sid = Some s' /\
    Session.company_id s' = Session.company_id s /\
    Session.started_at s' = Session.started_at s /\
    Session.step s'
    = match last (calls_to sid calls) with
      | Some c => ConversationStepRequest.step (snd c) + 1
      | None => Session.step s
      end /\
    forall f,
      Session.data s' !! f
      = match last (answers_to sid f calls) with
        | Some c => Some (ConversationStepRequest.value (snd c))
        | None => Session.data s !! f
        end.
Proof.
  intros Hs. induction calls as [|c calls IH] using rev_ind.
  - exists s. by repeat split.
  - destruct IH as (s' & Hs' & Hcompany & Hstarted & Hstep & Hdata).
    rewrite run_steps_snoc. unfold calls_to, answers_to in *.
    destruct (decide (ConversationStepRequest.session_id (snd c) = sid))
      as [Heq|Hne].
    + rewrite <- Heq in Hs'.
      rewrite (conversation_step_known _ _ _ s' Hs'). simpl fst.
      exists (answered (snd c) s'). rewrite Heq, lookup_insert_eq. simpl.
      repeat split; try done.
      * rewrite filter_app, filter_cons_True, filter_nil by done.
        by rewrite last_snoc.
      * intros f. rewrite filter_app.
        destruct (decide (ConversationStepRequest.field (snd c) = f))
          as [Hf|Hf].
        -- rewrite filter_cons_True, filter_nil by done.
           by rewrite last_snoc, Hf, lookup_insert_eq.
        -- rewrite filter_cons_False, filter_nil, app_nil_r by tauto.
           by rewrite lookup_insert_ne.
    + rewrite conversation_step_frame by done.
      exists s'. repeat split; try done.
      * rewrite filter_app, filter_cons_False, filter_nil, app_nil_r by done.
        done.
      * intros f.
        rewrite filter_app, filter_cons_False, filter_nil, app_nil_r by tauto.
        apply Hdata.
Qed.

Lemma last_answer_wins_witness :
  let calls := [(demo_env, demo_request 0 "revenue" (dyadic 500 0));
                (demo_env, demo_request 1 "ebitda" (dyadic 2000 0));
                (demo_env, demo_request 0 "revenue" (dyadic 2000000 0))] in
  exists s', run_steps calls demo_start !! demo_id = Some s' /\
             Session.data s' !! "revenue" = Some (dyadic 2000000 0) /\
             Session.step s' = 1.
Proof.
  intros calls.
  assert (demo_start !! demo_id
          = Some (Session.mk "co-1" 0 ∅ "2024-01-01T00:00:00")) as Hs
    by (vm_compute; reflexivity).
  destruct (last_answer_wins calls demo_start demo_id _ Hs)
    as (s' & Hs' & _ & _ & Hstep & Hdata).
  exists s'. split; [exact Hs'|]. split.
  - rewrite Hdata. vm_compute. reflexivity.
  - rewrite Hstep. vm_compute. reflexivity.
Defined.

(** X4 — after any run of Start and Step calls the identifiers in the store
    are those it had before together with those drawn by the Start calls of
    the run: no call removes a session and no Step call creates one. *)
Theorem calls_keep_sessions calls (σ : store) :
  dom (run_calls calls σ) = dom σ ∪ started_ids calls.
Proof.
  revert σ. induction calls as [|c calls IH]; intros σ.
  - unfold started_ids. simpl. by rewrite union_empty_r_L.
  - change (run_calls (c :: calls) σ) with (run_calls calls (run_call c σ)).
    rewrite IH. destruct c as [env request|env request]; unfold run_call.
    + rewrite start_conversation_store, dom_insert_L.
      unfold started_ids. simpl.
      by rewrite (comm_L (∪) {[Env.uuid4 env]} (dom σ)), (assoc_L (∪)).
    + unfold started_ids. simpl omap. f_equal.
      destruct (σ !! ConversationStepRequest.session_id request) as [s|] eqn:Hs.
      * rewrite (conversation_step_known env request σ s Hs). simpl fst.
        apply dom_insert_lookup_L. eauto.
      * by rewrite (conversation_step_unknown env request σ Hs).
Qed.

(** X5 — in every store reachable by Start and Step calls, a session with
    no recorded answer is at ordinal 0. *)
Theorem no_answers_means_ordinal_zero (σ : store) sid s :
  reachable σ -> σ !! sid = Some s ->
  Session.data s = ∅ -> Session.step s = 0.
Proof.
  intros Hreach. revert sid s.
  induction Hreach as [|env request σ _ IH|env request σ _ IH]; intros sid s.
  - by rewrite lookup_empty.
  - rewrite start_conversation_store.
    destruct (decide (Env.uuid4 env = sid)) as [->|Hne].
    + rewrite lookup_insert_eq. by intros [= <-].
    + rewrite lookup_insert_ne by done. apply IH.
  - destruct (decide (ConversationStepRequest.session_id request = sid))
      as [<-|Hne].
    + destruct (σ !! ConversationStepRequest.session_id request) as [s0|] eqn:Hs0.
      * rewrite (conversation_step_known env request σ s0 Hs0). simpl fst.
        rewrite lookup_insert_eq. intros [= <-]. simpl. intros Hempty.
        by apply insert_non_empty in Hempty.
      * rewrite (conversation_step_unknown env request σ Hs0). simpl fst.
        by rewrite Hs0.
    + rewrite conversation_step_frame by done. apply IH.
Qed.

Lemma no_answers_means_ordinal_zero_witness :
  reachable demo_start /\
  exists s, demo_start !! demo_id = Some s /\ Session.data s = ∅ /\
            Session.step s = 0.
Proof.
  assert (reachable demo_start) as Hreach
    by (apply reachable_start, reachable_empty).
  split; [exact Hreach|].
  exists (Session.mk "co-1" 0 ∅ "2024-01-01T00:00:00").
  assert (demo_start !! demo_id
          = Some (Session.mk "co-1" 0 ∅ "2024-01-01T00:00:00")) as Hs
    by (vm_compute; reflexivity).
  split; [exact Hs|]. split; [reflexivity|].
  exact (no_answers_means_ordinal_zero demo_start demo_id _ Hreach Hs eq_refl).
Defined.

(** ** Start, and clients that answer what they are asked *)

(** X6 — Start never fails: it answers with the drawn identifier, ordinal 0
    and the first catalog step; afterwards the store holds under that
    identifier a session at ordinal 0 with no answers (whatever it held there
    before), every other entry is as it was, and the reply a client builds
    from the response is in sequence. *)
Theorem start_opens_session env request (σ : store) answer :
  exists resp,
    snd (start_conversation env request σ) = Return resp /\
    StartConversationResponse.session_id resp = Env.uuid4 env /\
    StartConversationResponse.step resp = 0 /\
    fst (start_conversation env request σ) !! Env.uuid4 env
    = Some (Session.mk (StartConversationRequest.company_id request) 0 ∅
              (Env.utcnow_isoformat env)) /\
    (forall B, Env.uuid4 env <> B ->
               fst (start_conversation env request σ) !! B = σ !! B) /\
    in_sequence (fst (start_conversation env request σ))
      (reply_to_start answer resp).
Proof.
  eexists. split; [reflexivity|]. rewrite start_conversation_store.
  split; [reflexivity|]. split; [reflexivity|].
  split; [apply lookup_insert_eq|].
  split; [intros B HB; by apply lookup_insert_ne|].
  unfold in_sequence, reply_to_start. simpl. rewrite lookup_insert_eq. simpl.
  split; [lia|]. split; [reflexivity|]. eexists. split; reflexivity.
Qed.

(** X7 — when a Step call in sequence on an existing session returns a
    response, either the response is complete and asks for nothing, or it is
    not complete and the reply a client builds from it is again in sequence,
    for the same session, declaring the next ordinal. *)
Theorem reply_stays_in_sequence env request (σ : store) resp answer :
  is_Some (σ !! ConversationStepRequest.session_id request) ->
  in_sequence σ request ->
  snd (conversation_step env request σ) = Return resp ->
  match reply_to_step (ConversationStepRequest.session_id request) answer resp with
  | Some request' =>
      ConversationStepResponse.complete resp = false /\
      in_sequence (fst (conversation_step env request σ)) request' /\
      ConversationStepRequest.session_id request'
      = ConversationStepRequest.session_id request /\
      ConversationStepRequest.step request'
      = ConversationStepRequest.step request + 1
  | None => ConversationStepResponse.complete resp = true
  end.
Proof.
  intros [s Hs] Hseq. unfold in_sequence in Hseq. rewrite Hs in Hseq.
  destruct Hseq as (Hpos & Hdecl & fs & Hfs & Hfield).
  pose proof (lookup_lt_Some _ _ _ Hfs) as Hlen. simpl length in Hlen.
  rewrite (conversation_step_known env request σ s Hs). simpl fst. simpl snd.
  destruct request as [cid sid d f v]. simpl in *.
  unfold step_outcome. simpl ConversationStepRequest.step.
  assert (d = 0 \/ d = 1 \/ d = 2 \/ d = 3 \/ d = 4 \/ d = 5) as Hcases by lia.
  destruct Hcases as [->|[->|[->|[->|[->| ->]]]]].
  1-5: intros [= <-]; simpl reply_to_step; split; [reflexivity|];
       (split; [|split; reflexivity]);
       unfold in_sequence; simpl ConversationStepRequest.session_id;
       rewrite lookup_insert_eq; simpl;
       (split; [lia|]); (split; [reflexivity|]);
       eexists; split; reflexivity.
  change (stepCount - 1 <=? 5) with true. cbv iota.
  destruct (mock_valuation _ _) as [val|]; cbn [obind]; [|done].
  by intros [= <-].
Qed.

Lemma reply_stays_in_sequence_witness :
  let request := demo_request 0 "revenue" (dyadic 2000000 0) in
  let answer := fun _ : string => dyadic 7 0 in
  exists resp request',
    snd (conversation_step demo_env request demo_start) = Return resp /\
    reply_to_step demo_id answer resp = Some request' /\
    in_sequence (fst (conversation_step demo_env request demo_start)) request'.
Proof.
  intros request answer.
  destruct (snd (conversation_step demo_env request demo_start))
    as [resp|e] eqn:Hr; [|vm_compute in Hr; discriminate Hr].
  assert (is_Some (demo_start !! ConversationStepRequest.session_id request))
    as Hs by (vm_compute; eauto).
  assert (in_sequence demo_start request) as Hseq by solve_in_sequence.
  pose proof (reply_stays_in_sequence demo_env request demo_start resp answer
                Hs Hseq Hr) as H.
  change (ConversationStepRequest.session_id request) with demo_id in H.
  destruct (reply_to_step demo_id answer resp) as [request'|] eqn:Hreply.
  - exists resp, request'. split; [reflexivity|]. split; [exact Hreply|].
    exact (proj1 (proj2 H)).
  - exfalso. vm_compute in Hr. injection Hr as <-. discriminate H.
Defined.

(** ** What an in-progress response announces *)

(** X8 — a response that is not complete always announces a catalog step:
    its step is (declared + 1) modulo stepCount, and its prompt, field, input
    type, help text and bounds are those of the catalog entry at that index
    (it carries neither result nor error); that step is the ordinal the call
    stored when the declared ordinal is -1 or more, and is stepCount above
    the stored ordinal when it is lower. *)
Theorem in_progress_response_matches_catalog env request (σ : store) s resp :
  σ !! ConversationStepRequest.session_id request = Some s ->
  snd (conversation_step env request σ) = Return resp ->
  ConversationStepResponse.complete resp = false ->
  let declared := ConversationStepRequest.step request in
  exists fs s',
    CONVERSATION_FLOW !! Z.to_nat ((declared + 1) mod stepCount) = Some fs /\
    resp = ConversationStepResponse.mk false
             (FlowStep.ai_message_template fs)
             (Some (FlowStep.step fs))
             (Some (FlowStep.field fs))
             (Some (FlowStep.input_type fs))
             (Some (FlowStep.help_text fs))
             (Some (FlowStep.validation fs))
             None None /\
    ConversationStepResponse.step resp = Some ((declared + 1) mod stepCount) /\
    fst (conversation_step env request σ)
      !! ConversationStepRequest.session_id request = Some s' /\
    (-1 <= declared ->
       ConversationStepResponse.step resp = Some (Session.step s')) /\
    (declared < -1 ->
       ConversationStepResponse.step resp = Some (Session.step s' + stepCount)).
Proof.
  intros Hs Hret Hcomplete declared.
  rewrite (conversation_step_known env request σ s Hs) in Hret |- *.
  simpl fst. simpl snd in Hret. rewrite lookup_insert_eq.
  unfold step_outcome in Hret. fold declared in Hret.
  destruct (Z.leb_spec (stepCount - 1) declared) as [Hge|Hlt].
  { destruct (mock_valuation _ _) as [v|]; cbn [obind] in Hret; [|done].
    injection Hret as <-. discriminate Hcomplete. }
  unfold stepCount in Hlt. simpl length in Hlt.
  destruct (Z_lt_ge_dec (declared + 1) (- stepCount)) as [Hlo|Hlo].
  { rewrite py_index_flow_outside in Hret by lia. discriminate Hret. }
  unfold stepCount in Hlo. simpl length in Hlo.
  destruct (py_index CONVERSATION_FLOW (declared + 1)) as [fs|] eqn:Hidx;
    cbn [obind] in Hret; [|done].
  injection Hret as <-.
  exists fs, (answered request s). simpl Session.step. fold declared.
  assert (declared = -7 \/ declared = -6 \/ declared = -5 \/ declared = -4 \/
          declared = -3 \/ declared = -2 \/ declared = -1 \/ declared = 0 \/
          declared = 1 \/ declared = 2 \/ declared = 3 \/ declared = 4)
    as Hcases by lia.
  repeat (destruct Hcases as [Hd|Hcases]; [rewrite Hd in *|]);
    try rewrite Hcases in *;
    vm_compute in Hidx; injection Hidx as <-;
    repeat split; try reflexivity; intros; lia.
Qed.

Lemma in_progress_response_matches_catalog_witness :
  let request := demo_request (-3) "country" (dyadic 7 0) in
  snd (conversation_step demo_env request demo_start)
  = Return (ConversationStepResponse.mk false
              "What's your expected annual growth rate for the next few years? (as a percentage, e.g., 15 for 15%)"
              (Some 4) (Some "growth_rate") (Some "number")
              (Some "What's your expected annual growth rate?")
              (Some (Validation.mk (-50) 200)) None None) /\
  Session.step <$> demo_session (fst (conversation_step demo_env request demo_start))
  = Some (-2).
Proof.
  intros request.
  assert (demo_start !! ConversationStepRequest.session_id request
          = Some (Session.mk "co-1" 0 ∅ "2024-01-01T00:00:00")) as Hs
    by (vm_compute; reflexivity).
  destruct (snd (conversation_step demo_env request demo_start))
    as [resp|e] eqn:Hr; [|vm_compute in Hr; discriminate Hr].
  assert (ConversationStepResponse.complete resp = false) as Hc.
  { vm_compute in Hr. injection Hr as <-. reflexivity. }
  destruct (in_progress_response_matches_catalog demo_env request demo_start _
              resp Hs Hr Hc) as (fs & s' & Hfs & -> & _).
  vm_compute in Hfs. injection Hfs as <-.
  split; [reflexivity|]. vm_compute. reflexivity.
Defined.

(** ** Edge values of the revenue *)

(** X9 — a call that takes the completion branch while the recorded
    revenue is an infinity ends with OverflowError, and with ValueError when
    it is NaN; the session has been advanced all the same. *)
Theorem completion_fails_on_nonfinite_revenue env request (σ : store) s x :
  σ !! ConversationStepRequest.session_id request = Some s ->
  stepCount - 1 <= ConversationStepRequest.step request ->
  <[ConversationStepRequest.field request :=
      ConversationStepRequest.value request]> (Session.data s) !! "revenue"
  = Some x ->
  ((exists sg, x = S754_infinity sg) ->
     snd (conversation_step env request σ) = Raise OverflowError) /\
  (x = S754_nan ->
     snd (conversation_step env request σ) = Raise ValueError) /\
  Session.step <$> fst (conversation_step env request σ)
                     !! ConversationStepRequest.session_id request
  = Some (ConversationStepRequest.step request + 1).
Proof.
  intros Hs Hge Hrev.
  rewrite (conversation_step_known env request σ s Hs). simpl fst. simpl snd.
  rewrite lookup_insert_eq. unfold step_outcome.
  destruct (Z.leb_spec (stepCount - 1) (ConversationStepRequest.step request));
    [|lia].
  simpl Session.data.
  set (d := <[ConversationStepRequest.field request :=
                ConversationStepRequest.value request]> (Session.data s)) in *.
  assert (data_get d "revenue" (PyInt 1000000) = PyFloat x) as Hget
    by (unfold data_get; by rewrite Hrev).
  unfold mock_valuation. rewrite Hget.
  split; [|split; [|reflexivity]].
  - intros [sg ->]. reflexivity.
  - intros ->. reflexivity.
Qed.

Lemma completion_fails_on_nonfinite_revenue_witness :
  let request := demo_request 5 "revenue" (S754_infinity false) in
  snd (conversation_step demo_env request demo_start) = Raise OverflowError /\
  Session.step <$> demo_session (fst (conversation_step demo_env request demo_start))
  = Some 6.
Proof.
  intros request.
  assert (demo_start !! ConversationStepRequest.session_id request
          = Some (Session.mk "co-1" 0 ∅ "2024-01-01T00:00:00")) as Hs
    by (vm_compute; reflexivity).
  destruct (completion_fails_on_nonfinite_revenue demo_env request demo_start _
              (S754_infinity false) Hs) as (Hinf & _ & Hstep).
  - vm_compute. discriminate.
  - vm_compute. reflexivity.
  - split; [apply Hinf; eauto | exact Hstep].
Defined.

(** ** Signs of the valuation *)

Lemma binary_round_aux_sign sx mx ex lx :
  0 <= mx ->
  binary_round_aux prec emax sx mx ex lx <> S754_nan /\
  sign_clear (binary_round_aux prec emax sx mx ex lx) = negb sx.
Proof.
  intros Hm. unfold binary_round_aux.
  destruct (shr_fexp prec emax mx ex lx) as [mrs' e'] eqn:H1.
  destruct (shr_fexp_bound mx ex lx (Z.max (Zdigits2 mx + ex) (-1074)) _ _
              Hm ltac:(lia) ltac:(lia) H1) as (Hm' & _ & _).
  destruct (round_nearest_even_bound (shr_m mrs') (loc_of_shr_record mrs') Hm')
    as (Hm1 & _).
  destruct (shr_fexp prec emax _ e' loc_Exact) as [mrs'' e''] eqn:H2.
  destruct (shr_fexp_bound _ e' loc_Exact
              (Z.max (Zdigits2 (round_nearest_even (shr_m mrs')
                                  (loc_of_shr_record mrs')) + e') (-1074))
              _ _ Hm1 ltac:(lia) ltac:(lia) H2) as (Hm2 & _ & _).
  destruct (shr_m mrs'') as [|m|m]; [done| |lia].
  destruct (e'' <=? emax - prec); done.
Qed.

Lemma fmul_lit_sign x m e :
  x <> S754_nan -> sign_clear (fmul x (lit m e)) = sign_clear x.
Proof.
  destruct x as [s|s| |s mx ex]; intros Hx; simpl; try done.
  - by rewrite xorb_false_r.
  - by rewrite xorb_false_r.
  - unfold fmul. simpl.
    rewrite (proj2 (binary_round_aux_sign (xorb s false) (Zpos (mx * m))
                      (ex + e) loc_Exact ltac:(lia))).
    by rewrite xorb_false_r.
Qed.

Lemma py_int_sign x z :
  py_int x = Return z ->
  (sign_clear x = true -> 0 <= z) /\ (sign_clear x = false -> z <= 0).
Proof.
  destruct x as [s|s| |s m e]; simpl; try done; intros [= <-]; [lia|].
  pose proof (Z.shiftl_nonneg (Z.pos m) e) as Hn.
  destruct s; simpl; split; intros; try done; lia.
Qed.

Lemma py_int_not_nan x z : py_int x = Return z -> x <> S754_nan.
Proof. by destruct x. Qed.

Lemma fmul_nan_l c : fmul S754_nan c = S754_nan.
Proof. by destruct c. Qed.

Lemma float_of_int_sign n y :
  float_of_int n = Return y ->
  y <> S754_nan /\
  (0 <= n -> sign_clear y = true) /\
  (n < 0 -> sign_clear y = false).
Proof.
  unfold float_of_int, binary_normalize.
  destruct n as [|p|p].
  - intros [= <-]. repeat split; try done.
  - unfold binary_round.
    destruct (shl_align p 0 _) as [mz ez].
    destruct (binary_round_aux_sign false (Zpos mz) ez loc_Exact ltac:(lia))
      as (Hnan & Hsign).
    destruct (binary_round_aux _ _ _ _ _ _); try done;
      intros [= <-]; repeat split; try done; intros; simpl in *;
      try lia; congruence.
  - unfold binary_round.
    destruct (shl_align p 0 _) as [mz ez].
    destruct (binary_round_aux_sign true (Zpos mz) ez loc_Exact ltac:(lia))
      as (Hnan & Hsign).
    destruct (binary_round_aux _ _ _ _ _ _); try done;
      intros [= <-]; repeat split; try done; intros; simpl in *;
      try lia; congruence.
Qed.

Lemma py_mul_int_sign v m e p z :
  py_mul v (lit m e) = Return p -> py_int p = Return z ->
  (py_nonneg v = true -> 0 <= z) /\ (py_nonneg v = false -> z <= 0).
Proof.
  destruct v as [n|x|s]; simpl; [| |done].
  - destruct (float_of_int n) as [y|] eqn:Hy; simpl; [|done].
    intros [= <-] Hz.
    destruct (float_of_int_sign n y Hy) as (Hnan & Hpos & Hneg).
    destruct (py_int_sign _ _ Hz) as (Hz1 & Hz2).
    rewrite fmul_lit_sign in Hz1, Hz2 by done.
    split; intros Hn.
    + apply Hz1, Hpos. by apply Z.leb_le.
    + apply Hz2, Hneg. by apply Z.leb_gt.
  - intros [= <-] Hz.
    assert (x <> S754_nan) as Hnan.
    { intros ->. rewrite fmul_nan_l in Hz. discriminate Hz. }
    destruct (py_int_sign _ _ Hz) as (Hz1 & Hz2).
    rewrite fmul_lit_sign in Hz1, Hz2 by done. done.
Qed.

(** X10 — in every valuation result the estimate and both ends of the range
    have the sign of the revenue it echoes: none is negative when the revenue
    is not negative, none is positive when the revenue is negative (a value
    the handler accepts). *)
Theorem valuation_sign_follows_revenue env request (σ : store) resp v :
  snd (conversation_step env request σ) = Return resp ->
  ConversationStepResponse.valuation_result resp = Some v ->
  let range := ValuationResult.valuation_range v in
  (py_nonneg (ValuationResult.revenue v) = true ->
     0 <= ValuationResult.equity_value v /\
     0 <= Validation.min range /\ 0 <= Validation.max range) /\
  (py_nonneg (ValuationResult.revenue v) = false ->
     ValuationResult.equity_value v <= 0 /\
     Validation.min range <= 0 /\ Validation.max range <= 0).
Proof.
  intros Hret Hv range. subst range.
  destruct (σ !! ConversationStepRequest.session_id request) as [s|] eqn:Hs;
    [|rewrite (conversation_step_unknown env request σ Hs) in Hret;
      discriminate Hret].
  assert (ConversationStepResponse.complete resp = true) as Hcomplete.
  { rewrite (conversation_step_known env request σ s Hs) in Hret.
    simpl in Hret. unfold step_outcome in Hret.
    destruct (stepCount - 1 <=? _).
    - destruct (mock_valuation _ _); cbn [obind] in Hret; [|done].
      by injection Hret as <-.
    - destruct (py_index _ _); cbn [obind] in Hret; [|done].
      injection Hret as <-. discriminate Hv. }
  destruct (step_completes_inv env request σ s resp Hs Hret Hcomplete)
    as (v' & -> & Hval).
  injection Hv as ->.
  destruct (mock_valuation_inv _ _ _ Hval)
    as (e0 & p & plo & phi & valuation & lo & hi
        & _ & Hp & Hvaluation & Hplo & Hlo & Hphi & Hhi & ->).
  simpl.
  destruct (py_mul_int_sign _ _ _ _ _ Hp Hvaluation) as (H1 & H2).
  destruct (py_mul_int_sign _ _ _ _ _ Hplo Hlo) as (H3 & H4).
  destruct (py_mul_int_sign _ _ _ _ _ Hphi Hhi) as (H5 & H6).
  simpl in H3, H4, H5, H6.
  split; intros Hsign.
  - specialize (H1 Hsign).
    repeat split; [done | apply H3 | apply H5]; by apply Z.leb_le.
  - specialize (H2 Hsign).
    destruct (Z.leb_spec 0 valuation) as [Hz|Hz].
    + assert (valuation = 0) as -> by lia.
      vm_compute in Hplo, Hphi. injection Hplo as <-. injection Hphi as <-.
      injection Hlo as <-. injection Hhi as <-. done.
    + repeat split; [done | apply H4 | apply H6]; reflexivity.
Qed.

Lemma valuation_sign_follows_revenue_witness :
  let request := demo_request 5 "revenue" (SFopp (dyadic 2000000 0)) in
  exists resp v,
    snd (conversation_step demo_env request demo_start) = Return resp /\
    ConversationStepResponse.valuation_result resp = Some v /\
    ValuationResult.equity_value v <= 0 /\
    Validation.max (ValuationResult.valuation_range v) <= 0.
Proof.
  intros request.
  destruct (snd (conversation_step demo_env request demo_start))
    as [resp|e] eqn:Hr; [|vm_compute in Hr; discriminate Hr].
  destruct (ConversationStepResponse.valuation_result resp) as [v|] eqn:Hv;
    [|vm_compute in Hr; injection Hr as <-; discriminate Hv].
  exists resp, v. split; [reflexivity|]. split; [exact Hv|].
  destruct (valuation_sign_follows_revenue demo_env request demo_start resp v
              Hr Hv) as (_ & Hneg).
  assert (py_nonneg (ValuationResult.revenue v) = false) as Hsign.
  { vm_compute in Hr. injection Hr as <-. injection Hv as <-. reflexivity. }
  destruct (Hneg Hsign) as (H1 & _ & H3). split; assumption.
Defined.

(** ** Identifiers of results *)

Lemma step_result_inv env request (σ : store) resp v :
  snd (conversation_step env request σ) = Return resp ->
  ConversationStepResponse.valuation_result resp = Some v ->
  exists s, σ !! ConversationStepRequest.session_id request = Some s /\
            mock_valuation (Env.utcnow_timestamp env)
              (Session.data (answered request s)) = Return v.
Proof.
  intros Hret Hv.
  destruct (σ !! ConversationStepRequest.session_id request) as [s|] eqn:Hs;
    [|rewrite (conversation_step_unknown env request σ Hs) in Hret;
      discriminate Hret].
  exists s. split; [reflexivity|].
  rewrite (conversation_step_known env request σ s Hs) in Hret.
  simpl in Hret. unfold step_outcome in Hret.
  destruct (stepCount - 1 <=? _).
  - destruct (mock_valuation _ _) as [v'|]; cbn [obind] in Hret; [|done].
    injection Hret as <-. simpl in Hv. by injection Hv as ->.
  - destruct (py_index _ _); cbn [obind] in Hret; [|done].
    injection Hret as <-. discriminate Hv.
Qed.

(** X11 — two valuation results carry the same identifier exactly when
    they were computed at the same timestamp second, whatever the sessions
    and the answers: identifiers of results produced within one second
    collide. *)
Theorem valuation_ids_collide_within_a_second env1 env2 request1 request2
    (σ1 σ2 : store) resp1 resp2 v1 v2 :
  snd (conversation_step env1 request1 σ1) = Return resp1 ->
  ConversationStepResponse.valuation_result resp1 = Some v1 ->
  snd (conversation_step env2 request2 σ2) = Return resp2 ->
  ConversationStepResponse.valuation_result resp2 = Some v2 ->
  ValuationResult.valuation_id v1 = ValuationResult.valuation_id v2
  <-> Env.utcnow_timestamp env1 = Env.utcnow_timestamp env2.
Proof.
  intros Hret1 Hv1 Hret2 Hv2.
  destruct (step_result_inv _ _ _ _ _ Hret1 Hv1) as (s1 & _ & Hm1).
  destruct (step_result_inv _ _ _ _ _ Hret2 Hv2) as (s2 & _ & Hm2).
  destruct (mock_valuation_inv _ _ _ Hm1)
    as (? & ? & ? & ? & ? & ? & ? & _ & _ & _ & _ & _ & _ & _ & ->).
  destruct (mock_valuation_inv _ _ _ Hm2)
    as (? & ? & ? & ? & ? & ? & ? & _ & _ & _ & _ & _ & _ & _ & ->).
  simpl. split.
  - intros Hid. apply (inj (String.append "val_")) in Hid.
    by apply (inj pretty) in Hid.
  - by intros ->.
Qed.

Lemma valuation_ids_collide_within_a_second_witness :
  let request1 := demo_request 5 "country" (dyadic 7 0) in
  let request2 := ConversationStepRequest.mk "co-2" "other" 9 "revenue"
                    (dyadic 50000 0) in
  let σ := <["other" := demo_other]> demo_five_answers in
  exists v1 v2,
    (returned (snd (conversation_step demo_env request1 σ))
       ≫= ConversationStepResponse.valuation_result) = Some v1 /\
    (returned (snd (conversation_step demo_env request2 σ))
       ≫= ConversationStepResponse.valuation_result) = Some v2 /\
    ValuationResult.equity_value v1 <> ValuationResult.equity_value v2 /\
    ValuationResult.valuation_id v1 = ValuationResult.valuation_id v2.
Proof.
  intros request1 request2 σ.
  destruct (snd (conversation_step demo_env request1 σ)) as [resp1|e] eqn:Hr1;
    [|vm_compute in Hr1; discriminate Hr1].
  destruct (snd (conversation_step demo_env request2 σ)) as [resp2|e] eqn:Hr2;
    [|vm_compute in Hr2; discriminate Hr2].
  destruct (ConversationStepResponse.valuation_result resp1) as [v1|] eqn:Hv1;
    [|vm_compute in Hr1; injection Hr1 as <-; discriminate Hv1].
  destruct (ConversationStepResponse.valuation_result resp2) as [v2|] eqn:Hv2;
    [|vm_compute in Hr2; injection Hr2 as <-; discriminate Hv2].
  exists v1, v2. simpl. rewrite Hv1, Hv2.
  split; [reflexivity|]. split; [reflexivity|]. split.
  - vm_compute in Hr1, Hr2. injection Hr1 as <-. injection Hr2 as <-.
    injection Hv1 as <-. injection Hv2 as <-. vm_compute. discriminate.
  - by apply (valuation_ids_collide_within_a_second demo_env demo_env
                request1 request2 σ σ resp1 resp2 v1 v2).
Defined.

(** ** A whole conversation *)

Lemma converse_prompt env env' envs answer request (σ : store) s fs :
  σ !! ConversationStepRequest.session_id request = Some s ->
  (stepCount - 1 <=? ConversationStepRequest.step request) = false ->
  py_index CONVERSATION_FLOW (ConversationStepRequest.step request + 1)
  = Return fs ->
  converse env (env' :: envs) answer request σ
  = converse env' envs answer
      (ConversationStepRequest.mk ""
         (ConversationStepRequest.session_id request)
         (FlowStep.step fs) (FlowStep.field fs) (answer (FlowStep.field fs)))
      (<[ConversationStepRequest.session_id request := answered request s]> σ).
Proof.
  intros Hs Hlt Hidx. cbn [converse].
  rewrite (conversation_step_known env request σ s Hs). cbn [fst snd].
  unfold step_outcome. rewrite Hlt, Hidx. cbn [obind]. reflexivity.
Qed.

Lemma converse_last env envs answer request (σ : store) s :
  σ !! ConversationStepRequest.session_id request = Some s ->
  (stepCount - 1 <=? ConversationStepRequest.step request) = true ->
  converse env envs answer request σ
  = (<[ConversationStepRequest.session_id request := answered request s]> σ,
     obind (mock_valuation (Env.utcnow_timestamp env)
              (Session.data (answered request s)))
       (fun v => Return (complete_response v))).
Proof.
  intros Hs Hge.
  assert (conversation_step env request σ
          = (<[ConversationStepRequest.session_id request :=
                 answered request s]> σ,
             obind (mock_valuation (Env.utcnow_timestamp env)
                      (Session.data (answered request s)))
               (fun v => Return (complete_response v)))) as Hstep.
  { rewrite (conversation_step_known env request σ s Hs).
    unfold step_outcome. by rewrite Hge. }
  destruct envs as [|env' envs]; cbn [converse]; rewrite Hstep; cbn [fst snd].
  - by destruct (obind _ _).
  - destruct (mock_valuation _ _) as [v|]; cbn [obind]; reflexivity.
Qed.

(** X12 — Start followed by a client that answers each prompt with its
    answer for the field asked, given six environments for the Step calls
    and a revenue answer that is finite and below 2^900: the sixth Step call
    returns complete = true, the result echoes the client's six answers (no
    fallback value) and its estimate is the truncated product of the revenue
    answer by 2.5; the session ends at ordinal stepCount holding exactly the
    six answers. *)
Theorem prompted_conversation_completes env0 request0 env envs answer
    (σ : store) :
  (5 <= length envs)%nat -> moderate (answer "revenue") = true ->
  exists resp0 v p s,
    snd (start_conversation env0 request0 σ) = Return resp0 /\
    converse env envs answer (reply_to_start answer resp0)
      (fst (start_conversation env0 request0 σ))
    = (<[Env.uuid4 env0 := s]> σ, Return (complete_response v)) /\
    ValuationResult.revenue v = PyFloat (answer "revenue") /\
    ValuationResult.ebitda v = PyFloat (answer "ebitda") /\
    ValuationResult.employees v = PyFloat (answer "employees") /\
    ValuationResult.industry v = PyFloat (answer "industry") /\
    ValuationResult.growth_rate v = PyFloat (answer "growth_rate") /\
    ValuationResult.country v = PyFloat (answer "country") /\
    fmul (answer "revenue") f2_5 = p /\
    ValuationResult.equity_value v = Qtruncate (SF2Q p) /\
    Session.step s = stepCount /\
    Session.company_id s = StartConversationRequest.company_id request0 /\
    dom (Session.data s) = fields_below stepCount /\
    forall fs, fs ∈ CONVERSATION_FLOW ->
               Session.data s !! FlowStep.field fs
               = Some (answer (FlowStep.field fs)).
Proof.
  intros Hlen Hmod.
  destruct envs as [|e1 [|e2 [|e3 [|e4 [|e5 envs]]]]]; simpl in Hlen; try lia.
  set (d := <["country" := answer "country"]>
              (<["growth_rate" := answer "growth_rate"]>
                 (<["industry" := answer "industry"]>
                    (<["employees" := answer "employees"]>
                       (<["ebitda" := answer "ebitda"]>
                          (<["revenue" := answer "revenue"]>
                             (∅ : gmap string binary64))))))).
  set (s := Session.mk (StartConversationRequest.company_id request0) 6 d
              (Env.utcnow_isoformat env0)).
  assert (converse env [e1; e2; e3; e4; e5] answer
            (ConversationStepRequest.mk "" (Env.uuid4 env0) 0 "revenue"
               (answer "revenue"))
            (<[Env.uuid4 env0 :=
                 Session.mk (StartConversationRequest.company_id request0) 0 ∅
                   (Env.utcnow_isoformat env0)]> σ)
          = (<[Env.uuid4 env0 := s]> σ,
             obind (mock_valuation (Env.utcnow_timestamp e5) d)
               (fun v => Return (complete_response v)))) as Hrun.
  { do 5 (erewrite converse_prompt;
          [|cbn [ConversationStepRequest.session_id]; apply lookup_insert_eq
           |reflexivity|reflexivity];
          cbn [ConversationStepRequest.session_id]; rewrite insert_insert_eq).
    erewrite converse_last;
      [|cbn [ConversationStepRequest.session_id]; apply lookup_insert_eq
       |reflexivity].
    cbn [ConversationStepRequest.session_id]. rewrite insert_insert_eq.
    reflexivity. }
  assert (revenue_moderate d = true) as Hrev by exact Hmod.
  destruct (mock_valuation_total (Env.utcnow_timestamp e5) d Hrev) as (v & Hv).
  destruct (mock_valuation_inv _ _ _ Hv)
    as (e0 & p & plo & phi & valuation & lo & hi
        & _ & Hp & Hval & _ & _ & _ & _ & Heq).
  change (data_get d "revenue" (PyInt 1000000))
    with (PyFloat (answer "revenue")) in Hp, Heq.
  injection Hp as Hp.
  exists (StartConversationResponse.mk (Env.uuid4 env0)
            (CompanyInfo.mk "Demo Company" "Technology" "Belgium")
            "Hi! I'll help you get a quick business valuation. Let's start with your annual revenue - what was your total revenue last year?"
            0 "revenue" "number" "Enter your annual revenue in euros"
            (Validation.mk 10000 1000000000)), v, p, s.
  split; [reflexivity|].
  split.
  { rewrite start_conversation_store.
    assert (forall rest : list Env.t,
              converse env (e1 :: e2 :: e3 :: e4 :: e5 :: rest) answer
                (ConversationStepRequest.mk "" (Env.uuid4 env0) 0 "revenue"
                   (answer "revenue"))
                (<[Env.uuid4 env0 :=
                     Session.mk (StartConversationRequest.company_id request0)
                       0 ∅ (Env.utcnow_isoformat env0)]> σ)
              = converse env [e1; e2; e3; e4; e5] answer
                  (ConversationStepRequest.mk "" (Env.uuid4 env0) 0 "revenue"
                     (answer "revenue"))
                  (<[Env.uuid4 env0 :=
                       Session.mk (StartConversationRequest.company_id request0)
                         0 ∅ (Env.utcnow_isoformat env0)]> σ)) as Hrest.
    { intros rest.
      do 5 (erewrite converse_prompt;
            [|cbn [ConversationStepRequest.session_id]; apply lookup_insert_eq
             |reflexivity|reflexivity];
            cbn [ConversationStepRequest.session_id]; rewrite insert_insert_eq).
      symmetry.
      do 5 (erewrite converse_prompt;
            [|cbn [ConversationStepRequest.session_id]; apply lookup_insert_eq
             |reflexivity|reflexivity];
            cbn [ConversationStepRequest.session_id]; rewrite insert_insert_eq).
      erewrite !converse_last;
        [reflexivity
        |cbn [ConversationStepRequest.session_id]; apply lookup_insert_eq
        |reflexivity
        |cbn [ConversationStepRequest.session_id]; apply lookup_insert_eq
        |reflexivity]. }
    unfold reply_to_start.
    cbn [StartConversationResponse.session_id StartConversationResponse.step
         StartConversationResponse.next_field].
    rewrite Hrest, Hrun, Hv. reflexivity. }
  subst v. cbn [ValuationResult.revenue ValuationResult.ebitda
                ValuationResult.employees ValuationResult.industry
                ValuationResult.growth_rate ValuationResult.country
                ValuationResult.equity_value].
  repeat (split; [reflexivity|]).
  split; [exact Hp|].
  split; [subst p; by apply py_int_truncates|].
  split; [reflexivity|]. split; [reflexivity|].
  split; [vm_compute; reflexivity|].
  intros fs Hfs.
  repeat (apply elem_of_cons in Hfs as [->|Hfs]; [reflexivity|]).
  by apply elem_of_nil in Hfs.
Qed.

Lemma prompted_conversation_completes_witness :
  let envs := [demo_env; demo_env; demo_env; demo_env; demo_env] in
  exists v s,
    converse demo_env envs demo_answers
      (ConversationStepRequest.mk "" demo_id 0 "revenue" (dyadic 2000000 0))
      demo_start
    = (<[demo_id := s]> ∅, Return (complete_response v)) /\
    ValuationResult.equity_value v = 5000000.
Proof.
  intros envs.
  destruct (prompted_conversation_completes demo_env
              (StartConversationRequest.mk "co-1") demo_env envs demo_answers ∅)
    as (resp0 & v & p & s & Hstart & Hrun & _ & _ & _ & _ & _ & _ & Hp & Hv & _).
  - simpl. lia.
  - vm_compute. reflexivity.
  - exists v, s. split.
    + vm_compute in Hstart. injection Hstart as <-. exact Hrun.
    + rewrite Hv, <- Hp. vm_compute. reflexivity.
Defined.

(** * Properties of the favicon converter *)

Section Converter.

Context {png image : Type}.
Variable svg2png : string -> Z -> Z -> outcome png.
Variable image_open : png -> outcome image.
Variable resize : image -> Z -> Z -> outcome image.
Variable save : image -> string -> list (Z * Z) -> outcome unit.
Variable file_exists : string -> bool.

Lemma sbind_return_inv {A B} (m : SvgToIco.Script png image A)
    (k : A -> SvgToIco.Script png image B) calls b :
  SvgToIco.sbind m k = (calls, Return b) ->
  exists calls1 a calls2,
    m = (calls1, Return a) /\ k a = (calls2, Return b) /\
    calls = (calls1 ++ calls2)%list.
Proof.
  unfold SvgToIco.sbind. destruct m as [calls1 [a|e]]; [|done].
  destruct (k a) as [calls2 r] eqn:Hk. intros [= <- ->].
  by exists calls1, a, calls2.
Qed.

Lemma sbind_raise_inv {A B} (m : SvgToIco.Script png image A)
    (k : A -> SvgToIco.Script png image B) calls e :
  SvgToIco.sbind m k = (calls, Raise e) ->
  m = (calls, Raise e) \/
  exists calls1 a calls2,
    m = (calls1, Return a) /\ k a = (calls2, Raise e) /\
    calls = (calls1 ++ calls2)%list.
Proof.
  unfold SvgToIco.sbind. destruct m as [calls1 [a|e']].
  - destruct (k a) as [calls2 r] eqn:Hk. intros [= <- ->].
    right. by exists calls1, a, calls2.
  - intros [= <- <-]. by left.
Qed.

Lemma foldl_max_spec (rest : list Z) : forall size,
  size <= foldl Z.max size rest /\
  (forall s, s ∈ rest -> s <= foldl Z.max size rest) /\
  foldl Z.max size rest ∈ size :: rest.
Proof.
  induction rest as [|x rest IH]; intros size; simpl.
  - split; [lia|]. split; [by intros s Hs%elem_of_nil | apply list_elem_of_here].
  - destruct (IH (Z.max size x)) as (Hge & Hall & Hin).
    split; [lia|]. split.
    + intros s [->|Hs]%elem_of_cons; [lia | by apply Hall].
    + apply elem_of_cons in Hin as [Heq|Hin].
      * rewrite Heq. destruct (Z.max_spec size x) as [[_ ->]|[_ ->]].
        -- apply list_elem_of_further, list_elem_of_here.
        -- apply list_elem_of_here.
      * by apply list_elem_of_further, list_elem_of_further.
Qed.

Lemma py_max_spec sizes m :
  SvgToIco.py_max sizes = Return m ->
  m ∈ sizes /\ forall s, s ∈ sizes -> s <= m.
Proof.
  destruct sizes as [|size rest]; simpl; [done|]. intros [= <-].
  destruct (foldl_max_spec rest size) as (Hge & Hall & Hin).
  split; [done|]. intros s [->|Hs]%elem_of_cons; [done | by apply Hall].
Qed.

Lemma resize_each_return img sizes
    (calls : list (SvgToIco.lib_call png image)) images :
  SvgToIco.resize_each resize img sizes = (calls, Return images) ->
  calls = map (fun s => SvgToIco.Resize img s s) sizes /\
  Forall2 (fun s im => resize img s s = Return im) sizes images.
Proof.
  revert calls images. induction sizes as [|size rest IH]; intros calls images.
  - cbn [SvgToIco.resize_each]. unfold SvgToIco.sret. intros [= <- <-].
    by split.
  - cbn [SvgToIco.resize_each]. intros H.
    apply sbind_return_inv in H as (c1 & resized & c2 & H1 & H2 & ->).
    apply sbind_return_inv in H2 as (c3 & rest_images & c4 & H3 & H4 & ->).
    unfold SvgToIco.perform in H1. injection H1 as <- Hres.
    unfold SvgToIco.sret in H4. injection H4 as <- <-.
    destruct (IH _ _ H3) as (-> & Hall).
    split; [by rewrite app_nil_r|]. by constructor.
Qed.

Lemma resize_each_raise img sizes
    (calls : list (SvgToIco.lib_call png image)) e :
  SvgToIco.resize_each resize img sizes = (calls, Raise e) ->
  Forall (fun c => SvgToIco.is_save c = false /\ SvgToIco.is_print c = false)
    calls.
Proof.
  revert calls. induction sizes as [|size rest IH]; intros calls.
  - cbn [SvgToIco.resize_each]. unfold SvgToIco.sret. done.
  - cbn [SvgToIco.resize_each]. intros H.
    apply sbind_raise_inv in H as [H|(c1 & resized & c2 & H1 & H2 & ->)].
    + unfold SvgToIco.perform in H. injection H as <- _.
      by repeat constructor.
    + unfold SvgToIco.perform in H1. injection H1 as <- _.
      apply sbind_raise_inv in H2 as [H2|(c3 & imgs & c4 & _ & H4 & _)].
      * constructor; [done|]. by apply IH.
      * unfold SvgToIco.sret in H4. discriminate H4.
Qed.

Lemma svg_to_ico_returns svg_path ico_path sizes
    (calls : list (SvgToIco.lib_call png image)) :
  SvgToIco.svg_to_ico svg2png image_open resize save svg_path ico_path sizes
  = (calls, Return tt) ->
  exists m png_data img size0 first,
    m ∈ sizes /\ (forall s, s ∈ sizes -> s <= m) /\
    svg2png svg_path m m = Return png_data /\
    image_open png_data = Return img /\
    head sizes = Some size0 /\
    resize img size0 size0 = Return first /\
    calls = ([SvgToIco.Svg2png svg_path m m; SvgToIco.ImageOpen png_data]
             ++ map (fun s => SvgToIco.Resize img s s) sizes
             ++ [SvgToIco.Save first ico_path (map (fun s => (s, s)) sizes);
                 SvgToIco.Print ("Successfully converted " +:+ svg_path
                                 +:+ " to " +:+ ico_path)])%list.
Proof.
  unfold SvgToIco.svg_to_ico. intros H.
  apply sbind_return_inv in H as (c1 & m & c2 & H1 & H & ->).
  injection H1 as <- Hmax.
  apply sbind_return_inv in H as (c3 & png_data & c4 & H3 & H & ->).
  unfold SvgToIco.perform in H3. injection H3 as <- Hpng.
  apply sbind_return_inv in H as (c5 & img & c6 & H5 & H & ->).
  unfold SvgToIco.perform in H5. injection H5 as <- Himg.
  apply sbind_return_inv in H as (c7 & images & c8 & H7 & H & ->).
  apply resize_each_return in H7 as (-> & Hall).
  apply sbind_return_inv in H as (c9 & first & c10 & H9 & H & ->).
  injection H9 as <- Hfirst.
  apply sbind_return_inv in H as (c11 & [] & c12 & H11 & H & ->).
  unfold SvgToIco.perform in H11, H. injection H11 as <- Hsave.
  injection H as <-.
  destruct (py_max_spec sizes m Hmax) as (Hin & Hle).
  destruct Hall as [|size0 first' rest rest_images Hres Hall];
    [by apply elem_of_nil in Hin|].
  vm_compute in Hfirst. injection Hfirst as ->.
  exists m, png_data, img, size0, first.
  repeat split; try done.
Qed.

Lemma svg_to_ico_raises svg_path ico_path sizes
    (calls : list (SvgToIco.lib_call png image)) e :
  SvgToIco.svg_to_ico svg2png image_open resize save svg_path ico_path sizes
  = (calls, Raise e) ->
  (sizes = [] -> calls = [] /\ e = ValueError) /\
  Forall (fun c => SvgToIco.is_print c = false) calls /\
  (forall c, c ∈ calls -> SvgToIco.is_save c = true ->
     last calls = Some c /\
     exists img, c = SvgToIco.Save img ico_path (map (fun s => (s, s)) sizes) /\
                 save img ico_path (map (fun s => (s, s)) sizes) = Raise e).
Proof.
  unfold SvgToIco.svg_to_ico. intros H. split.
  { intros ->. simpl in H. by injection H as <- <-. }
  apply sbind_raise_inv in H as [H|(c1 & m & c2 & H1 & H & ->)].
  { injection H as <- _. split; [constructor|]. by intros c Hc%elem_of_nil. }
  injection H1 as <- _. cbn [app].
  apply sbind_raise_inv in H as [H|(c3 & png_data & c4 & H3 & H & ->)].
  { unfold SvgToIco.perform in H. injection H as <- _.
    split; [by repeat constructor|].
    intros c Hc%list_elem_of_singleton ?. by subst c. }
  unfold SvgToIco.perform in H3. injection H3 as <- _. cbn [app].
  apply sbind_raise_inv in H as [H|(c5 & img & c6 & H5 & H & ->)].
  { unfold SvgToIco.perform in H. injection H as <- _.
    split; [by repeat constructor|].
    intros c Hc ?. apply elem_of_cons in Hc as [->|Hc]; [done|].
    apply list_elem_of_singleton in Hc. by subst c. }
  unfold SvgToIco.perform in H5. injection H5 as <- _. cbn [app].
  assert (Forall (fun c : SvgToIco.lib_call png image =>
                    SvgToIco.is_save c = false /\ SvgToIco.is_print c = false)
            (map (fun s => SvgToIco.Resize img s s) sizes)) as Hresizes.
  { apply Forall_forall. by intros c (s & -> & _)%list_elem_of_fmap. }
  apply sbind_raise_inv in H as [H|(c7 & images & c8 & H7 & H & ->)].
  { apply resize_each_raise in H. split.
    - repeat constructor. eapply Forall_impl; [exact H|]. by intros c [_ ?].
    - intros c Hc Hsave.
      apply elem_of_cons in Hc as [->|Hc]; [done|].
      apply elem_of_cons in Hc as [->|Hc]; [done|].
      rewrite Forall_forall in H. destruct (H c Hc) as [Hns _]. congruence. }
  apply resize_each_return in H7 as (-> & Hall).
  rewrite Forall_forall in Hresizes.
  apply sbind_raise_inv in H as [H|(c9 & first & c10 & H9 & H & ->)].
  { injection H as <- _. rewrite app_nil_r. split.
    - repeat constructor. apply Forall_forall. intros c Hc.
      by destruct (Hresizes c Hc).
    - intros c Hc Hsave.
      apply elem_of_cons in Hc as [->|Hc]; [done|].
      apply elem_of_cons in Hc as [->|Hc]; [done|].
      destruct (Hresizes c Hc). congruence. }
  injection H9 as <- _. cbn [app].
  apply sbind_raise_inv in H as [H|(c11 & [] & c12 & H11 & H & ->)].
  { unfold SvgToIco.perform in H. injection H as <- Hsave. split.
    - repeat constructor. rewrite Forall_app. split; [|by repeat constructor].
      apply Forall_forall. intros c Hc. by destruct (Hresizes c Hc).
    - intros c Hc Hc'.
      apply elem_of_cons in Hc as [->|Hc]; [done|].
      apply elem_of_cons in Hc as [->|Hc]; [done|].
      apply elem_of_app in Hc as [Hc|Hc].
      + destruct (Hresizes c Hc). congruence.
      + apply list_elem_of_singleton in Hc as ->. split; [|eauto].
        match goal with
        | |- last (?a :: ?b :: (?l ++ [?c])%list) = _ =>
            change (a :: b :: (l ++ [c])%list) with ((a :: b :: l) ++ [c])%list
        end.
        apply last_snoc. }
  unfold SvgToIco.perform in H. discriminate H.
Qed.

(** X13 — a conversion that succeeds has made exactly these calls, in this
    order: one rendering at the largest requested size (a size of the list,
    and no requested size exceeds it), one decoding of the rendered data, one
    resizing of the decoded image per requested size, one save of the image
    resized to the first size with every size as a square, one message. *)
Theorem svg_to_ico_success_trace svg_path ico_path sizes
    (calls : list (SvgToIco.lib_call png image)) :
  SvgToIco.svg_to_ico svg2png image_open resize save svg_path ico_path sizes
  = (calls, Return tt) ->
  exists m png_data img size0 first,
    m ∈ sizes /\ (forall s, s ∈ sizes -> s <= m) /\
    svg2png svg_path m m = Return png_data /\
    image_open png_data = Return img /\
    head sizes = Some size0 /\
    resize img size0 size0 = Return first /\
    calls = ([SvgToIco.Svg2png svg_path m m; SvgToIco.ImageOpen png_data]
             ++ map (fun s => SvgToIco.Resize img s s) sizes
             ++ [SvgToIco.Save first ico_path (map (fun s => (s, s)) sizes);
                 SvgToIco.Print ("Successfully converted " +:+ svg_path
                                 +:+ " to " +:+ ico_path)])%list.
Proof. apply svg_to_ico_returns. Qed.

(** X14 — a conversion that fails has printed nothing, and has called the
    save only if it is the save that raised, as the last call; with an empty
    list of sizes it fails with ValueError before any call. *)
Theorem svg_to_ico_failure_trace svg_path ico_path sizes
    (calls : list (SvgToIco.lib_call png image)) e :
  SvgToIco.svg_to_ico svg2png image_open resize save svg_path ico_path sizes
  = (calls, Raise e) ->
  (sizes = [] -> calls = [] /\ e = ValueError) /\
  Forall (fun c => SvgToIco.is_print c = false) calls /\
  (forall c, c ∈ calls -> SvgToIco.is_save c = true ->
     last calls = Some c /\
     exists img, c = SvgToIco.Save img ico_path (map (fun s => (s, s)) sizes) /\
                 save img ico_path (map (fun s => (s, s)) sizes) = Raise e).
Proof. apply svg_to_ico_raises. Qed.

(** The [__main__] block on its own, that is once the imports have
    succeeded: when the SVG file is missing it prints the error, calls no
    library and exits with code 1; when it ends normally it has rendered at
    48 × 48, resized to 16, 32 and 48 in this order, saved the 16 × 16 image
    with the three square sizes, and its last message is
    "Conversion complete!"; when a library call raises, that message is not
    printed. *)
Lemma main_runs :
  let run := SvgToIco.main svg2png image_open resize save file_exists in
  (file_exists "public/favicon-2.svg" = false ->
     run = ([SvgToIco.Print "Error: public/favicon-2.svg not found"],
            SvgToIco.Exit 1)) /\
  (snd run = SvgToIco.Done ->
     file_exists "public/favicon-2.svg" = true /\
     exists png_data img first,
       resize img 16 16 = Return first /\
       fst run
       = [SvgToIco.Svg2png "public/favicon-2.svg" 48 48;
          SvgToIco.ImageOpen png_data;
          SvgToIco.Resize img 16 16; SvgToIco.Resize img 32 32;
          SvgToIco.Resize img 48 48;
          SvgToIco.Save first "public/favicon.ico" [(16, 16); (32, 32); (48, 48)];
          SvgToIco.Print
            "Successfully converted public/favicon-2.svg to public/favicon.ico";
          SvgToIco.Print "Conversion complete!"]) /\
  (forall e, snd run = SvgToIco.Uncaught e ->
     SvgToIco.Print "Conversion complete!" ∉ fst run).
Proof.
  intros run. subst run. unfold SvgToIco.main.
  destruct (file_exists "public/favicon-2.svg") eqn:Hex; simpl negb; cbv iota.
  - split; [done|].
    destruct (SvgToIco.svg_to_ico _ _ _ _ _ _ _) as [calls [[]|e]] eqn:Hrun.
    + split; [|done]. intros _. split; [done|].
      apply svg_to_ico_returns in Hrun
        as (m & png_data & img & size0 & first & Hin & Hle & _ & _ & Hhead
            & Hres & ->).
      injection Hhead as <-.
      assert (m = 48) as ->.
      { pose proof (Hle 48 ltac:(apply list_elem_of_further,
                                   list_elem_of_further, list_elem_of_here)).
        unfold SvgToIco.default_sizes in Hin.
        repeat (apply elem_of_cons in Hin as [->|Hin]; [lia|]).
        by apply elem_of_nil in Hin. }
      exists png_data, img, first. split; [exact Hres | reflexivity].
    + split; [done|]. intros e' [= <-]. simpl fst.
      apply svg_to_ico_raises in Hrun as (_ & Hprint & _).
      intros Hin. rewrite Forall_forall in Hprint.
      specialize (Hprint _ Hin). discriminate Hprint.
  - split; [done|]. split; [done|].
    intros e [=].
Qed.

End Converter.

(** * The converter run as a script *)

Section Script.

Context {png image : Type}.
Variable svg2png : string -> Z -> Z -> outcome png.
Variable image_open : png -> outcome image.
Variable resize : image -> Z -> Z -> outcome image.
Variable save : image -> string -> list (Z * Z) -> outcome unit.
Variable file_exists : string -> bool.
Variable first_import : bool.
Variable executable : string.
Variable pip_install : bool.
Variable second_import : bool.

(** X15 — the script.  It starts with the imports; when they raise
    ImportError it prints "Required packages not found. Installing...", runs
    [executable -m pip install Pillow cairosvg --quiet] and imports again,
    and ends there, with no conversion, when pip fails or the second import
    fails.  Once the imports have succeeded (at first, or after the
    installation): when public/favicon-2.svg is missing it prints the error,
    makes no library call and exits with code 1; when it ends normally it has
    rendered at 48 × 48, resized to 16, 32 and 48 in this order, saved the
    16 × 16 image to public/favicon.ico with the three square sizes and
    printed "Conversion complete!" last; when a library call raises,
    "Conversion complete!" is not printed. *)
Theorem program_runs :
  let run := SvgToIco.program svg2png image_open resize save file_exists
               first_import executable pip_install second_import in
  let installing : list (SvgToIco.program_call png image) :=
    [SvgToIco.Import;
     SvgToIco.Library
       (SvgToIco.Print "Required packages not found. Installing...");
     SvgToIco.Subprocess
       [executable; "-m"; "pip"; "install"; "Pillow"; "cairosvg"; "--quiet"]] in
  let prelude :=
    if first_import then [SvgToIco.Import]
    else if pip_install then (installing ++ [SvgToIco.Import])%list
         else installing in
  (first_import = false -> pip_install = false ->
     run = (prelude, SvgToIco.UncaughtCalledProcessError)) /\
  (first_import = false -> pip_install = true -> second_import = false ->
     run = (prelude, SvgToIco.UncaughtImportError)) /\
  (first_import = true \/ (pip_install = true /\ second_import = true) ->
     (file_exists "public/favicon-2.svg" = false ->
        run = ((prelude ++
                [SvgToIco.Library
                   (SvgToIco.Print "Error: public/favicon-2.svg not found")])%list,
               SvgToIco.Ended (SvgToIco.Exit 1))) /\
     (snd run = SvgToIco.Ended SvgToIco.Done ->
        file_exists "public/favicon-2.svg" = true /\
        exists png_data img first,
          resize img 16 16 = Return first /\
          fst run
          = (prelude ++
             map SvgToIco.Library
               [SvgToIco.Svg2png "public/favicon-2.svg" 48 48;
                SvgToIco.ImageOpen png_data;
                SvgToIco.Resize img 16 16; SvgToIco.Resize img 32 32;
                SvgToIco.Resize img 48 48;
                SvgToIco.Save first "public/favicon.ico"
                  [(16, 16); (32, 32); (48, 48)];
                SvgToIco.Print
                  "Successfully converted public/favicon-2.svg to public/favicon.ico";
                SvgToIco.Print "Conversion complete!"])%list) /\
     (forall e, snd run = SvgToIco.Ended (SvgToIco.Uncaught e) ->
        SvgToIco.Library (SvgToIco.Print "Conversion complete!") ∉ fst run)).
Proof.
  intros run installing prelude.
  destruct (main_runs svg2png image_open resize save file_exists)
    as (Hmissing & Hdone & Hraise).
  assert (forall before : list (SvgToIco.program_call png image),
            SvgToIco.Library (SvgToIco.Print "Conversion complete!") ∉ before ->
            (file_exists "public/favicon-2.svg" = false ->
             SvgToIco.run_main svg2png image_open resize save file_exists before
             = ((before ++
                 [SvgToIco.Library
                    (SvgToIco.Print "Error: public/favicon-2.svg not found")])%list,
                SvgToIco.Ended (SvgToIco.Exit 1))) /\
            (snd (SvgToIco.run_main svg2png image_open resize save file_exists
                    before) = SvgToIco.Ended SvgToIco.Done ->
             file_exists "public/favicon-2.svg" = true /\
             exists png_data img first,
               resize img 16 16 = Return first /\
               fst (SvgToIco.run_main svg2png image_open resize save
                      file_exists before)
               = (before ++
                  map SvgToIco.Library
                    [SvgToIco.Svg2png "public/favicon-2.svg" 48 48;
                     SvgToIco.ImageOpen png_data;
                     SvgToIco.Resize img 16 16; SvgToIco.Resize img 32 32;
                     SvgToIco.Resize img 48 48;
                     SvgToIco.Save first "public/favicon.ico"
                       [(16, 16); (32, 32); (48, 48)];
                     SvgToIco.Print
                       "Successfully converted public/favicon-2.svg to public/favicon.ico";
                     SvgToIco.Print "Conversion complete!"])%list) /\
            (forall e,
               snd (SvgToIco.run_main svg2png image_open resize save
                      file_exists before)
               = SvgToIco.Ended (SvgToIco.Uncaught e) ->
               SvgToIco.Library (SvgToIco.Print "Conversion complete!")
               ∉ fst (SvgToIco.run_main svg2png image_open resize save
                        file_exists before))) as Hmain.
  { intros before Hbefore. unfold SvgToIco.run_main.
    destruct (SvgToIco.main svg2png image_open resize save file_exists)
      as [calls t] eqn:Hrun.
    simpl in Hmissing, Hdone, Hraise. cbn [fst snd].
    split; [|split].
    - intros Hex. specialize (Hmissing Hex). by injection Hmissing as -> ->.
    - intros [= ->]. destruct (Hdone eq_refl) as (Hex & png_data & img & first
                                                  & Hres & ->).
      split; [exact Hex|]. by exists png_data, img, first.
    - intros e [= ->]. specialize (Hraise e eq_refl).
      intros [Hin|Hin]%elem_of_app; [by apply Hbefore|].
      apply list_elem_of_fmap in Hin as (c & [= <-] & Hc). by apply Hraise. }
  assert (SvgToIco.Library (SvgToIco.Print "Conversion complete!")
          ∉ ([SvgToIco.Import] : list (SvgToIco.program_call png image)))
    as Hfresh1.
  { intros Hin%list_elem_of_singleton. discriminate Hin. }
  assert (SvgToIco.Library (SvgToIco.Print "Conversion complete!")
          ∉ (installing ++ [SvgToIco.Import])%list) as Hfresh2.
  { subst installing. cbn [app]. intros Hin.
    repeat (apply elem_of_cons in Hin as [Hin|Hin]; [discriminate Hin|]).
    by apply elem_of_nil in Hin. }
  subst run prelude. unfold SvgToIco.program.
  fold installing.
  destruct first_import, pip_install, second_import;
    (split; [intros; try done|]); (split; [intros; try done|]);
    intros Hready; try (destruct Hready as [|[? ?]]; done);
    first [apply (Hmain _ Hfresh1) | apply (Hmain _ Hfresh2)].
Qed.

End Script.

Lemma program_runs_witness :
  let run := SvgToIco.program SvgToIco.toy_svg2png SvgToIco.toy_open
               SvgToIco.toy_resize SvgToIco.toy_save (fun _ => true)
               false "python3" true true in
  snd run = SvgToIco.Ended SvgToIco.Done /\
  (exists rest,
     fst run
     = [SvgToIco.Import;
        SvgToIco.Library
          (SvgToIco.Print "Required packages not found. Installing...");
        SvgToIco.Subprocess
          ["python3"; "-m"; "pip"; "install"; "Pillow"; "cairosvg"; "--quiet"];
        SvgToIco.Import;
        SvgToIco.Library (SvgToIco.Svg2png "public/favicon-2.svg" 48 48)]
       ++ rest)%list.
Proof.
  intros run.
  assert (snd run = SvgToIco.Ended SvgToIco.Done) as Hdone
    by (vm_compute; reflexivity).
  split; [exact Hdone|].
  destruct (program_runs SvgToIco.toy_svg2png SvgToIco.toy_open
              SvgToIco.toy_resize SvgToIco.toy_save (fun _ => true)
              false "python3" true true) as (_ & _ & Hready).
  destruct (Hready (or_intror (conj eq_refl eq_refl))) as (_ & Hrun & _).
  destruct (Hrun Hdone) as (_ & png_data & img & first & _ & Htrace).
  subst run. rewrite Htrace. eexists. reflexivity.
Defined.

Lemma svg_to_ico_success_trace_witness :
  exists calls m,
    SvgToIco.svg_to_ico SvgToIco.toy_svg2png SvgToIco.toy_open
      SvgToIco.toy_resize SvgToIco.toy_save "logo.svg" "logo.ico" [32; 64; 16]
    = (calls, Return tt) /\
    SvgToIco.Svg2png "logo.svg" m m ∈ calls /\ m = 64.
Proof.
  destruct (SvgToIco.svg_to_ico SvgToIco.toy_svg2png SvgToIco.toy_open
              SvgToIco.toy_resize SvgToIco.toy_save "logo.svg" "logo.ico"
              [32; 64; 16]) as [calls [[]|e]] eqn:Hrun;
    [|vm_compute in Hrun; discriminate Hrun].
  destruct (svg_to_ico_success_trace _ _ _ _ _ _ _ _ Hrun)
    as (m & png_data & img & size0 & first & Hin & Hle & _ & _ & _ & _ & ->).
  eexists _, m. split; [reflexivity|]. split; [apply list_elem_of_here|].
  pose proof (Hle 64 ltac:(apply list_elem_of_further, list_elem_of_here)).
  repeat (apply elem_of_cons in Hin as [->|Hin]; [lia|]).
  by apply elem_of_nil in Hin.
Defined.

Lemma svg_to_ico_failure_trace_witness :
  SvgToIco.svg_to_ico SvgToIco.toy_svg2png SvgToIco.toy_open
    SvgToIco.toy_resize SvgToIco.toy_save "logo.svg" "logo.ico" []
  = ([], Raise ValueError).
Proof.
  destruct (SvgToIco.svg_to_ico SvgToIco.toy_svg2png SvgToIco.toy_open
              SvgToIco.toy_resize SvgToIco.toy_save "logo.svg" "logo.ico" [])
    as [calls [[]|e]] eqn:Hrun; [vm_compute in Hrun; discriminate Hrun|].
  destruct (svg_to_ico_failure_trace _ _ _ _ _ _ _ _ _ Hrun) as (Hempty & _).
  destruct (Hempty eq_refl) as (-> & ->). reflexivity.
Defined.

(** ** Exact estimates for integer revenues *)

Lemma iter_shr_1_exact p : forall q,
  0 <= q ->
  SpecFloat.iter_pos shr_1 p (Build_shr_record (q * 2 ^ Zpos p) false false)
  = Build_shr_record q false false.
Proof.
  assert (forall q, 0 <= q ->
            shr_1 (Build_shr_record (q * 2) false false)
            = Build_shr_record q false false) as Hone.
  { intros q Hq. rewrite Z.mul_comm. destruct q as [|q|q]; [done|done|lia]. }
  induction p as [p IH|p IH|]; intros q Hq; cbn [SpecFloat.iter_pos].
  - assert (0 < 2 ^ Z.pos p) as Hpow by (apply Z.pow_pos_nonneg; lia).
    replace (q * 2 ^ Z.pos p~1) with (q * 2 ^ Z.pos p * 2 ^ Z.pos p * 2).
    + rewrite Hone by nia. rewrite IH by nia. by apply IH.
    + rewrite (Pos2Z.inj_xI p), Z.pow_add_r, Z.pow_mul_r by lia.
      change (2 ^ 2) with 4. change (2 ^ 1) with 2.
      replace (4 ^ Z.pos p) with (2 ^ Z.pos p * 2 ^ Z.pos p)
        by (rewrite <- Z.pow_mul_l; reflexivity).
      lia.
  - assert (0 < 2 ^ Z.pos p) as Hpow by (apply Z.pow_pos_nonneg; lia).
    replace (q * 2 ^ Z.pos p~0) with (q * 2 ^ Z.pos p * 2 ^ Z.pos p).
    + rewrite IH by nia. by apply IH.
    + rewrite (Pos2Z.inj_xO p), Z.pow_mul_r by lia.
      change (2 ^ 2) with 4.
      replace (4 ^ Z.pos p) with (2 ^ Z.pos p * 2 ^ Z.pos p)
        by (rewrite <- Z.pow_mul_l; reflexivity).
      lia.
  - change (2 ^ 1) with 2. by apply Hone.
Qed.

Lemma Zdigits2_mul_pow2 q k :
  0 < q -> 0 <= k -> Zdigits2 (q * 2 ^ k) = Zdigits2 q + k.
Proof.
  intros Hq Hk.
  assert (0 < 2 ^ k) as Hpow by (apply Z.pow_pos_nonneg; lia).
  pose proof (Zdigits2_lt q ltac:(lia)) as Hlt.
  pose proof (Zdigits2_nonneg q) as Hd.
  apply Z.le_antisymm.
  - apply Zdigits2_le; [nia | lia |].
    rewrite Z.pow_add_r by lia. nia.
  - destruct (Z_lt_le_dec (Zdigits2 (q * 2 ^ k)) (Zdigits2 q + k)) as [Hc|];
      [|lia].
    exfalso.
    pose proof (Zdigits2_lt (q * 2 ^ k) ltac:(nia)) as Hlt'.
    pose proof (Zdigits2_nonneg (q * 2 ^ k)) as Hd'.
    assert (2 ^ Zdigits2 (q * 2 ^ k) <= 2 ^ (Zdigits2 q - 1 + k)) as Hle
      by (apply Z.pow_le_mono_r; lia).
    assert (Zdigits2 q <= Zdigits2 q - 1) as Habs; [|lia].
    destruct (Z_le_gt_dec 1 (Zdigits2 q)) as [H1|H1].
    + apply Zdigits2_le; [lia | lia |].
      rewrite Z.pow_add_r in Hle by lia. nia.
    + destruct q; simpl in H1; lia.
Qed.

(** Rounding a significand [q * 2 ^ k] whose [q] has 53 digits is exact
    in the normal range. *)
Lemma binary_round_aux_exact s q k e :
  0 < q -> Zdigits2 q = 53 -> 0 <= k -> -1074 <= e + k <= 971 ->
  binary_round_aux prec emax s (q * 2 ^ k) e loc_Exact
  = S754_finite s (Z.to_pos q) (e + k).
Proof.
  intros Hq Hd Hk He.
  assert (0 < 2 ^ k) as Hpow by (apply Z.pow_pos_nonneg; lia).
  unfold binary_round_aux.
  assert (shr_fexp prec emax (q * 2 ^ k) e loc_Exact
          = (Build_shr_record q false false, e + k)) as ->.
  { unfold shr_fexp. rewrite Zdigits2_mul_pow2, Hd by lia.
    replace (fexp prec emax (53 + k + e) - e) with k
      by (unfold fexp, emin, prec, emax; lia).
    unfold shr. simpl shr_record_of_loc.
    destruct k as [|p|p]; [|by rewrite iter_shr_1_exact by lia|lia].
    by rewrite Z.mul_1_r, Z.add_0_r. }
  simpl loc_of_shr_record. simpl round_nearest_even. simpl shr_m.
  assert (shr_fexp prec emax q (e + k) loc_Exact
          = (Build_shr_record q false false, e + k)) as ->.
  { unfold shr_fexp. rewrite Hd.
    replace (fexp prec emax (53 + (e + k)) - (e + k)) with 0
      by (unfold fexp, emin, prec, emax; lia).
    reflexivity. }
  simpl shr_m. destruct q as [|q|q]; [lia| |lia].
  destruct (Z.leb_spec (e + k) (emax - prec)) as [_|Hgt];
    [reflexivity | unfold emax, prec in Hgt; lia].
Qed.

Lemma Zpos_iter_xO m p : Zpos (Pos.iter xO m p) = Zpos m * 2 ^ Zpos p.
Proof.
  induction p as [|p IH] using Pos.peano_ind.
  - simpl. lia.
  - rewrite Pos.iter_succ, Pos2Z.inj_xO, IH, Pos2Z.inj_succ, Z.pow_succ_r by lia.
    lia.
Qed.

(** The float of a positive integer with at most 53 digits is that integer:
    its significand is the integer shifted to 53 digits. *)
Lemma float_of_int_exact n :
  0 < n -> Zdigits2 n <= 53 ->
  float_of_int n
  = Return (S754_finite false (Z.to_pos (n * 2 ^ (53 - Zdigits2 n)))
              (Zdigits2 n - 53)).
Proof.
  intros Hn Hd. destruct n as [|m|m]; [lia| |lia].
  unfold float_of_int, binary_normalize, binary_round, shl_align.
  simpl Zdigits2 in *.
  set (d := Z.pos (digits2_pos m)) in *.
  replace (fexp prec emax (d + 0) - 0) with (d - 53)
    by (unfold fexp, emin, prec, emax; lia).
  replace (fexp prec emax (d + 0)) with (d - 53)
    by (unfold fexp, emin, prec, emax; lia).
  destruct (d - 53) as [|p|p] eqn:Hp; [| lia |].
  - pose proof (binary_round_aux_exact false (Zpos m) 0 0 ltac:(lia)
                  ltac:(simpl; lia) ltac:(lia) ltac:(lia)) as Hr.
    rewrite Z.mul_1_r in Hr. rewrite Hr.
    replace (53 - d) with 0 by lia. by rewrite Z.mul_1_r.
  - pose proof (binary_round_aux_exact false (Zpos (Pos.iter xO m p)) 0
                  (Z.neg p) ltac:(lia)) as Hr.
    rewrite Z.mul_1_r, Z.add_0_r in Hr. rewrite Hr.
    + replace (53 - d) with (Z.pos p) by lia. by rewrite Zpos_iter_xO.
    + simpl. rewrite digits2_pos_iter_xO. lia.
    + lia.
    + lia.
Qed.

(** The product by 2.5 of the float of [n] is the exact half of [5 * n]
    as long as [5 * n] has at most 53 digits, and its integer part is
    [5 * n / 2]. *)
Lemma estimate_of_integer n x :
  0 <= n -> 5 * n < 2 ^ 53 -> float_of_int n = Return x ->
  py_int (fmul x f2_5) = Return (5 * n / 2).
Proof.
  intros Hn Hbound Hx.
  destruct (Z.eq_dec n 0) as [->|Hne].
  { vm_compute in Hx. injection Hx as <-. reflexivity. }
  assert (0 < n) as Hpos by lia.
  pose proof (Zdigits2_lt n ltac:(lia)) as Hlt.
  pose proof (Zdigits2_nonneg n) as Hd0.
  assert (Zdigits2 n <= Zdigits2 (5 * n)) as Hmono.
  { destruct (Z_le_gt_dec (Zdigits2 n) (Zdigits2 (5 * n))) as [|Hgt]; [done|].
    exfalso. pose proof (Zdigits2_lt (5 * n) ltac:(lia)) as Hlt5.
    pose proof (Zdigits2_nonneg (5 * n)).
    assert (Zdigits2 n <= Zdigits2 (5 * n)); [|lia].
    apply Zdigits2_le; lia. }
  assert (Zdigits2 (5 * n) <= 53) as Hd5
    by (apply Zdigits2_le; lia).
  rewrite float_of_int_exact in Hx by lia. injection Hx as <-.
  set (d := Zdigits2 n) in *. set (d5 := Zdigits2 (5 * n)) in *.
  assert (0 < 2 ^ (53 - d)) as Hp1 by (apply Z.pow_pos_nonneg; lia).
  assert (0 < 2 ^ (53 - d5)) as Hp2 by (apply Z.pow_pos_nonneg; lia).
  assert (0 < 2 ^ (50 - d + d5)) as Hp3 by (apply Z.pow_pos_nonneg; lia).
  unfold fmul, f2_5, lit. simpl SFmul.
  rewrite Pos2Z.inj_mul, Z2Pos.id by nia.
  replace (n * 2 ^ (53 - d) * 5629499534213120)
    with (5 * n * 2 ^ (53 - d5) * 2 ^ (50 - d + d5)).
  2:{ change 5629499534213120 with (5 * 2 ^ 50).
      replace (2 ^ (53 - d)) with (2 ^ (53 - d5) * 2 ^ (d5 - d))
        by (rewrite <- Z.pow_add_r by lia; f_equal; lia).
      replace (2 ^ (50 - d + d5)) with (2 ^ 50 * 2 ^ (d5 - d))
        by (rewrite <- Z.pow_add_r by lia; f_equal; lia).
      ring. }
  rewrite binary_round_aux_exact.
  - simpl py_int. simpl cond_Zopp. rewrite Z2Pos.id by nia.
    replace (d - 53 + -51 + (50 - d + d5)) with (- (54 - d5)) by lia.
    rewrite Z.shiftl_opp_r, Z.shiftr_div_pow2 by lia. f_equal.
    replace (2 ^ (54 - d5)) with (2 ^ (53 - d5) * 2)
      by (replace (54 - d5) with (53 - d5 + 1) by lia;
          rewrite Z.pow_add_r by lia; reflexivity).
    rewrite (Z.mul_comm (5 * n)), Z.div_mul_cancel_l by lia. reflexivity.
  - nia.
  - subst d5. rewrite Zdigits2_mul_pow2 by lia. lia.
  - lia.
  - pose proof (Zdigits2_nonneg (5 * n)). subst d5.
    assert (1 <= Zdigits2 (5 * n)); [|lia].
    destruct (5 * n) eqn:E; simpl; lia.
Qed.

Lemma float_of_int_dyadic n x : float_of_int n = Return x -> x = dyadic n 0.
Proof.
  unfold float_of_int, dyadic.
  destruct (binary_normalize prec emax n 0 false); by intros [= <-].
Qed.

(** X16 — when the recorded revenue is the float of an integer n with
    0 <= n <= 10^15 (the catalog's revenue range lies within), a call that
    takes the completion branch returns a result whose estimate is exactly
    5 * n / 2 rounded down: the float arithmetic adds no error. *)
Theorem integer_revenue_estimate_exact env request (σ : store) s n :
  σ !! ConversationStepRequest.session_id request = Some s ->
  stepCount - 1 <= ConversationStepRequest.step request ->
  0 <= n <= 1000000000000000 ->
  <[ConversationStepRequest.field request :=
      ConversationStepRequest.value request]> (Session.data s) !! "revenue"
  = Some (dyadic n 0) ->
  exists v,
    snd (conversation_step env request σ) = Return (complete_response v) /\
    ValuationResult.revenue v = PyFloat (dyadic n 0) /\
    ValuationResult.equity_value v = 5 * n / 2.
Proof.
  intros Hs Hge Hn Hrev.
  rewrite (conversation_step_known env request σ s Hs). simpl snd.
  unfold step_outcome.
  destruct (Z.leb_spec (stepCount - 1) (ConversationStepRequest.step request));
    [|lia].
  simpl Session.data.
  set (d := <[ConversationStepRequest.field request :=
                ConversationStepRequest.value request]> (Session.data s)) in *.
  destruct (float_of_int_bound n 53 ltac:(simpl; lia) ltac:(lia))
    as (x & Hx & Hmag).
  pose proof (float_of_int_dyadic n x Hx) as ->.
  assert (revenue_moderate d = true) as Hmod.
  { unfold revenue_moderate. rewrite Hrev.
    destruct (dyadic n 0); simpl in *; try done. apply Z.leb_le. lia. }
  destruct (mock_valuation_total (Env.utcnow_timestamp env) d Hmod) as (v & Hv).
  rewrite Hv. cbn [obind]. exists v. split; [reflexivity|].
  destruct (mock_valuation_inv _ _ _ Hv)
    as (e0 & p & plo & phi & valuation & lo & hi
        & _ & Hp & Hval & _ & _ & _ & _ & ->).
  unfold data_get in Hp |- *. rewrite Hrev in Hp |- *. simpl.
  split; [reflexivity|].
  injection Hp as <-.
  rewrite (estimate_of_integer n (dyadic n 0) ltac:(lia) ltac:(simpl; lia) Hx)
    in Hval.
  by injection Hval as <-.
Qed.

Lemma integer_revenue_estimate_exact_witness :
  let request := demo_request 5 "country" (dyadic 7 0) in
  exists v,
    snd (conversation_step demo_env request demo_five_answers)
    = Return (complete_response v) /\
    ValuationResult.equity_value v = 5000000.
Proof.
  intros request.
  destruct (demo_five_answers !! ConversationStepRequest.session_id request)
    as [s|] eqn:Hs; [|vm_compute in Hs; discriminate Hs].
  destruct (integer_revenue_estimate_exact demo_env request demo_five_answers
              s 2000000 Hs) as (v & Hret & _ & Hv).
  - vm_compute. discriminate.
  - lia.
  - vm_compute in Hs. injection Hs as <-. vm_compute. reflexivity.
  - exists v. split; [exact Hret|]. rewrite Hv. reflexivity.
Defined.
